(** * NeuralDiff SDK: the multi-level visual hashing module (src/hashing.ts)

    A shallow embedding of [VisualHasher] and of the functions exported
    beside it, followed by the properties proved about them.

    Conventions of the embedding.
    - A JavaScript [number] is an IEEE 754 binary64 value: Rocq's primitive
      [float], with the same rounding.  Integers that the source converts
      to numbers (lengths, counters, pixel samples) go through [of_nat] or
      [of_Z], exact below 2^53.
    - A read past the end of an array or a string yields [undefined]; every
      such read here feeds [+], [-], [*], [/] or [>], which turn it into
      [NaN] (ToNumber), so an out-of-range numeric read is modelled as
      [nan].
    - [Date.now()] and the [duration] / [totalDuration] fields it feeds are
      left out: they are wall-clock readings and take part in no decision.
    - [sharp] (decode, resize, greyscale, blur), [Math.cos] and
      [Array.prototype.sort] are external: they are parameters of the
      definitions that call them, gathered in the record [Env.t]. *)

From Stdlib Require Import ZArith List String Ascii Bool Arith Lia Sorted Permutation.
From Stdlib Require Import Strings.Byte Floats Uint63.
Import ListNotations.

Set Warnings "-inexact-float".
Local Open Scope nat_scope.

(** ** Numbers *)

Definition number := float.

Module JS.

Definition of_Z (z : Z) : number := PrimFloat.of_uint63 (Uint63.of_Z z).
Definition of_nat (n : nat) : number := of_Z (Z.of_nat n).

(** [a > b] and [a >= b] on numbers: false as soon as one side is NaN. *)
Definition gt (a b : number) : bool := PrimFloat.ltb b a.
Definition ge (a b : number) : bool := PrimFloat.leb b a.

(** [a === b] on numbers. *)
Definition strict_eq (a b : number) : bool := PrimFloat.eqb a b.

(** [arr[i]] on an array of numbers, in a numeric context. *)
Definition index (arr : list number) (i : nat) : number := nth i arr nan.

End JS.

(** ** Errors

    Every failure of the module is a JavaScript [Error]; the constructors
    keep which [throw] built it and, for the rethrow of [generateHash], the
    error it caught.  [ExternalError] is whatever [sharp] throws. *)

Inductive error : Type :=
  | HashLengthsMustBeEqual
  | UnknownHashingAlgorithm (algorithm : string)
  | HashGenerationFailed (algorithm : string) (cause : error)
  | ExternalError (message : string).

Inductive result (A : Type) : Type :=
  | Ok (a : A)
  | Err (e : error).
Arguments Ok {A} a.
Arguments Err {A} e.

Definition bind {A B : Type} (r : result A) (f : A -> result B) : result B :=
  match r with
  | Ok a => f a
  | Err e => Err e
  end.

Declare Scope result_scope.
Delimit Scope result_scope with result.
Notation "x <- c ;; k" := (bind c (fun x => k))
  (at level 61, c at next level, right associativity) : result_scope.

(** ** Hash comparison *)

Inductive Severity : Type := low | medium | high.

Module Differences.
Record t : Type := mk {
    count : nat;
    positions : list nat;
    severity : Severity
  }.
End Differences.

Module HashComparison.
Record t : Type := mk {
    identical : bool;
    similarity : number;
    algorithm : string;
    differences : option Differences.t
  }.
End HashComparison.

(** [hash1[i] !== hash2[i]]: two one-character strings, or [undefined]
    past the end. *)
Definition option_ascii_eqb (a b : option ascii) : bool :=
  match a, b with
  | Some x, Some y => Ascii.eqb x y
  | None, None => true
  | _, _ => false
  end.

Definition char_differs (hash1 hash2 : string) (i : nat) : bool :=
  negb (option_ascii_eqb (String.get i hash1) (String.get i hash2)).

(** [calculateHammingDistance] *)
Definition calculateHammingDistance (hash1 hash2 : string) : result nat :=
  if negb (String.length hash1 =? String.length hash2) then
    Err HashLengthsMustBeEqual
  else
    Ok (fold_left
          (fun distance i => if char_differs hash1 hash2 i then distance + 1 else distance)
          (seq 0 (String.length hash1)) 0).

(** [compareHashes] *)
Definition compareHashes (hash1 hash2 algorithm : string) : result HashComparison.t :=
  if String.eqb hash1 hash2 then
    Ok (HashComparison.mk true 1%float algorithm None)
  else
    (hammingDistance <- calculateHammingDistance hash1 hash2 ;;
     let maxDistance := String.length hash1 in
     let similarity := (1 - JS.of_nat hammingDistance / JS.of_nat maxDistance)%float in
     let severity :=
       if JS.gt similarity 0.8%float then low
       else if JS.gt similarity 0.6%float then medium
       else high in
     let positions :=
       fold_left
         (fun positions i => if char_differs hash1 hash2 i then positions ++ [i] else positions)
         (seq 0 (String.length hash1)) [] in
     let differences := Differences.mk hammingDistance positions severity in
     Ok (HashComparison.mk (JS.strict_eq similarity 1%float) similarity algorithm
           (Some differences)))%result.

(** The comparison result as the rest of the system reads it: a result
    without a [differences] object has no differing bit. *)
Definition differingBitCount (r : HashComparison.t) : nat :=
  match HashComparison.differences r with
  | Some d => Differences.count d
  | None => 0
  end.

Definition differingBitPositions (r : HashComparison.t) : list nat :=
  match HashComparison.differences r with
  | Some d => Differences.positions d
  | None => []
  end.

(** The indices at which two strings differ, in ascending order. *)
Definition mismatches (hash1 hash2 : string) : list nat :=
  filter (char_differs hash1 hash2) (seq 0 (String.length hash1)).

(** ** Pixel buffers

    A Node [Buffer] and the [Uint8Array] built over it are sequences of
    bytes; [sample] is the number an element reads as. *)

Definition Buffer := list byte.
Definition Uint8Array := list byte.

Definition sample (b : byte) : number := JS.of_Z (Z.of_N (Byte.to_N b)).

(** [pixels[i]] in a numeric context. *)
Definition px (pixels : Uint8Array) (i : nat) : number :=
  match nth_error pixels i with
  | Some b => sample b
  | None => nan
  end.

(** The byte a number [n] is stored as in a [Uint8Array] (modulo 256). *)
Definition u8 (n : nat) : byte :=
  match Byte.of_N (N.of_nat n mod 256) with
  | Some b => b
  | None => x00
  end.

(** [arr[i] = v] on a JavaScript array: a write past the end extends the
    array, the skipped cells are holes and read as [undefined]. *)
Definition array_set (arr : list number) (i : nat) (v : number) : list number :=
  if i <? List.length arr then firstn i arr ++ v :: skipn (S i) arr
  else arr ++ repeat nan (i - List.length arr) ++ [v].

(** The values a counter takes in [for (i = start; i < stop; i = next(i))].
    [fuel] bounds the number of iterations; [stop - start] is enough as
    soon as [next] increases (lemma [for_steps_fuel]). *)
Fixpoint for_steps (fuel : nat) (next : nat -> nat) (i stop : nat) : list nat :=
  match fuel with
  | 0 => []
  | S fuel' => if i <? stop then i :: for_steps fuel' next (next i) stop else []
  end.

(** [hash += bit ? '1' : '0'] *)
Definition push_bit (hash : string) (b : bool) : string :=
  (hash ++ String (if b then "1" else "0")%char EmptyString)%string.

(** ** Utility functions of [VisualHasher] *)

(** [Array.prototype.sort] with a comparator, on an array of numbers.  The
    standard fixes the result when the comparator is consistent on the
    values: the stable ascending order.  The comparator [(a, b) => a - b] is
    not consistent as soon as a difference is NaN, and the order is then the
    engine's; the sort is therefore a parameter, given the comparator and
    the values. *)
Definition Sort := (number -> number -> number) -> list number -> list number.

(** A stable insertion sort, [a] before [b] when [compare a b < 0]: the
    stand-in for the engine's sort in examples. *)
Fixpoint sort_insert (compare : number -> number -> number) (x : number)
    (sorted : list number) : list number :=
  match sorted with
  | [] => [x]
  | y :: rest =>
      if PrimFloat.ltb (compare x y) 0%float then x :: y :: rest
      else y :: sort_insert compare x rest
  end.

Definition insertion_sort : Sort :=
  fun compare values => fold_right (sort_insert compare) [] (rev values).

(** [median].  On the empty array [mid] is 0 and [sorted[mid - 1]] is
    [sorted[-1]], which is [undefined]. *)
Definition median (Array_sort : Sort) (values : list number) : number :=
  let sorted := Array_sort (fun a b => (a - b)%float) values in
  let mid := List.length sorted / 2 in
  if List.length sorted mod 2 =? 0 then
    ((match mid with 0 => nan | S m => JS.index sorted m end + JS.index sorted mid) / 2)%float
  else JS.index sorted mid.

Definition Math_PI : number := 3.141592653589793%float.

Section SimpleDCT.

(** [Math.cos] is implementation-approximated. *)
Variable Math_cos : number -> number.

(** [simpleDCT] *)
Definition simpleDCT (pixels : Uint8Array) (size : nat) : list number :=
  fold_left
    (fun dct u =>
       fold_left
         (fun dct v =>
            let sum :=
              fold_left
                (fun sum x =>
                   fold_left
                     (fun sum y =>
                        let cos1 :=
                          Math_cos ((2 * JS.of_nat x + 1) * JS.of_nat u * Math_PI
                                    / (2 * JS.of_nat size))%float in
                        let cos2 :=
                          Math_cos ((2 * JS.of_nat y + 1) * JS.of_nat v * Math_PI
                                    / (2 * JS.of_nat size))%float in
                        (sum + px pixels (y * size + x) * cos1 * cos2)%float)
                     (seq 0 size) sum)
                (seq 0 size) 0%float in
            array_set dct (u * size + v) sum)
         (seq 0 size) dct)
    (seq 0 size) (repeat 0%float (size * size)).

End SimpleDCT.

(** [haarWavelet].  [new Array(size * size)] is an array of holes. *)
Definition haarWavelet (pixels : Uint8Array) (size : nat) : list number :=
  let result := repeat nan (size * size) in
  let result :=
    fold_left (fun result i => array_set result i (px pixels i))
      (seq 0 (List.length pixels)) result in
  fold_left
    (fun result step =>
       fold_left
         (fun result i =>
            fold_left
              (fun result j =>
                 let idx1 := i * size + j in
                 let idx2 := (i + step) * size + j in
                 let avg := ((JS.index result idx1 + JS.index result idx2) / 2)%float in
                 let diff := ((JS.index result idx1 - JS.index result idx2) / 2)%float in
                 let result := array_set result idx1 avg in
                 array_set result idx2 diff)
              (seq 0 size) result)
         (for_steps size (fun i => i + step * 2) 0 size) result)
    (for_steps size (fun step => step * 2) 1 size) result.

(** [calculateGradients].  [y] and [x] run from 1 while below [size - 1]:
    [size - 2] values, none when [size] is below 3. *)
Definition calculateGradients (pixels : Uint8Array) (size : nat) : list number :=
  fold_left
    (fun gradients y =>
       fold_left
         (fun gradients x =>
            let idx := y * size + x in
            let gx := (px pixels (idx + 1) - px pixels (idx - 1))%float in
            let gy := (px pixels ((y + 1) * size + x) - px pixels ((y - 1) * size + x))%float in
            let magnitude := PrimFloat.sqrt (gx * gx + gy * gy)%float in
            gradients ++ [magnitude])
         (seq 1 (size - 2)) gradients)
    (seq 1 (size - 2)) [].

(** ** The hashing algorithms, on the raw samples [sharp] returned

    Each function below is the body of the private method of the same name
    after its [sharp] pipeline: [pixels] is [new Uint8Array(resized)]. *)

(** [averageHash] *)
Definition averageHash_pixels (pixels : Uint8Array) : string :=
  let average :=
    (fold_left (fun sum pixel => sum + sample pixel) pixels 0
     / JS.of_nat (List.length pixels))%float in
  fold_left (fun hash i => push_bit hash (JS.gt (px pixels i) average))
    (seq 0 (List.length pixels)) EmptyString.

(** [differenceHash] *)
Definition differenceHash_pixels (pixels : Uint8Array) (size : nat) : string :=
  fold_left
    (fun hash y =>
       fold_left
         (fun hash x =>
            let current := px pixels (y * (size + 1) + x) in
            let next := px pixels (y * (size + 1) + x + 1) in
            push_bit hash (JS.gt current next))
         (seq 0 size) hash)
    (seq 0 size) EmptyString.

(** [perceptualHash] *)
Definition perceptualHash_pixels (Math_cos : number -> number) (Array_sort : Sort)
    (pixels : Uint8Array) (size : nat) : string :=
  let dct := simpleDCT Math_cos pixels size in
  let lowFreq :=
    fold_left
      (fun lowFreq i =>
         fold_left (fun lowFreq j => lowFreq ++ [JS.index dct (i * size + j)])
           (seq 0 (Nat.min 8 size)) lowFreq)
      (seq 0 (Nat.min 8 size)) [] in
  let median := median Array_sort lowFreq in
  fold_left (fun hash value => push_bit hash (JS.gt value median)) lowFreq EmptyString.

(** [advancedPerceptualHash], after the blur: [blurredPixels] is
    [new Uint8Array(blurred)]. *)
Definition advancedPerceptualHash_pixels (Math_cos : number -> number)
    (blurredPixels : Uint8Array) (size : nat) : string :=
  let dct := simpleDCT Math_cos blurredPixels size in
  let freqCount := Nat.min (size * 2) (size * size) in
  let lowFreq :=
    fold_left (fun lowFreq i => lowFreq ++ [JS.index dct i]) (seq 0 freqCount) [] in
  let mean :=
    (fold_left (fun sum val => sum + val) lowFreq 0 / JS.of_nat (List.length lowFreq))%float in
  fold_left (fun hash value => push_bit hash (JS.gt value mean)) lowFreq EmptyString.

(** [waveletHash].  [approxSize] is the number [size / 2]; an integer [i]
    is below it exactly when [i < (size + 1) / 2] in integer division. *)
Definition waveletHash_pixels (Array_sort : Sort) (pixels : Uint8Array) (size : nat)
  : string :=
  let wavelet := haarWavelet pixels size in
  let approxCount := (size + 1) / 2 in
  let approx :=
    fold_left
      (fun approx i =>
         fold_left (fun approx j => approx ++ [JS.index wavelet (i * size + j)])
           (seq 0 approxCount) approx)
      (seq 0 approxCount) [] in
  let threshold := median Array_sort approx in
  fold_left (fun hash value => push_bit hash (JS.gt value threshold)) approx EmptyString.

(** [blockHash] *)
Definition blockHash_pixels (pixels : Uint8Array) (size : nat) : string :=
  let blockSize := 4 in
  fold_left
    (fun hash by_ =>
       fold_left
         (fun hash bx =>
            let blockSum :=
              fold_left
                (fun blockSum y =>
                   fold_left
                     (fun blockSum x =>
                        let px_ := bx * blockSize + x in
                        let py := by_ * blockSize + y in
                        (blockSum + px pixels (py * (size * 4) + px_))%float)
                     (seq 0 blockSize) blockSum)
                (seq 0 blockSize) 0%float in
            let blockAvg := (blockSum / JS.of_nat (blockSize * blockSize))%float in
            push_bit hash (JS.gt blockAvg 128%float))
         (seq 0 size) hash)
    (seq 0 size) EmptyString.

(** [structuralHash] *)
Definition structuralHash_pixels (Array_sort : Sort) (pixels : Uint8Array) (size : nat)
  : string :=
  let gradients := calculateGradients pixels size in
  let threshold := median Array_sort gradients in
  fold_left (fun hash gradient => push_bit hash (JS.gt gradient threshold))
    gradients EmptyString.

(** [colorHistogramHash].  [histogram[pixels[i]]++] always hits one of the
    256 cells, a sample being a byte. *)
Definition colorHistogramHash_pixels (pixels : Uint8Array) : string :=
  let channels := 3 in
  let histograms :=
    fold_left
      (fun histograms c =>
         let histogram :=
           fold_left
             (fun histogram i =>
                match nth_error pixels i with
                | Some p =>
                    let k := N.to_nat (Byte.to_N p) in
                    array_set histogram k (JS.index histogram k + 1)%float
                | None => histogram
                end)
             (for_steps (List.length pixels) (fun i => i + channels) c (List.length pixels))
             (repeat 0%float 256) in
         firstn c histograms ++ histogram :: skipn (S c) histograms)
      (seq 0 channels) [[]; []; []] in
  fold_left
    (fun hash histogram =>
       let mean :=
         (snd (fold_left (fun '(idx, sum) val => (S idx, sum + val * JS.of_nat idx))
                 histogram (0%nat, 0%float))
          / fold_left (fun sum val => sum + val) histogram 0)%float in
       push_bit hash (JS.gt mean 128%float))
    histograms EmptyString.

(** [gradientHash] *)
Definition gradientHash_pixels (Array_sort : Sort) (pixels : Uint8Array) (size : nat)
  : string :=
  let gradients := calculateGradients pixels size in
  let threshold := median Array_sort gradients in
  fold_left (fun hash gradient => push_bit hash (JS.gt gradient threshold))
    gradients EmptyString.

(** ** External collaborators *)

Module Env.
Record t : Type := mk {
  (** [sharp(imageBuffer).resize(width, height).raw().toBuffer()], with
      [.grayscale()] before [.raw()] when the flag is set *)
  sharp_resize_raw : Buffer -> nat -> nat -> bool -> result Buffer;
  (** [sharp(resized, { raw: { width: size, height: size, channels: 1 } })
      .blur(1).raw().toBuffer()] *)
  sharp_blur_raw : Buffer -> nat -> result Buffer;
  Math_cos : number -> number;
  (** [values.sort(compare)] *)
  Array_sort : Sort
}.
End Env.

(** A stand-in for [sharp] in examples: [decode] gives the raw samples of
    an image whatever the requested size, the blur is the identity, the
    cosine is constant and the sort is the insertion sort. *)
Definition stub_env (decode : Buffer -> result Buffer) : Env.t :=
  Env.mk (fun imageBuffer _ _ _ => decode imageBuffer)
         (fun resized _ => Ok resized)
         (fun _ => 1%float)
         insertion_sort.

(** ** [VisualHasher]: hash generation *)

Inductive MetaValue : Type :=
  | MetaNumber (n : nat)
  | MetaBool (b : bool).

Module HashResult.
Record t : Type := mk {
  hash : string;
  algorithm : string;
  confidence : number;
  metadata : list (string * MetaValue)
}.
End HashResult.

Definition averageHash (env : Env.t) (imageBuffer : Buffer) (size : nat) : result string :=
  (resized <- Env.sharp_resize_raw env imageBuffer size size true ;;
   Ok (averageHash_pixels resized))%result.

Definition differenceHash (env : Env.t) (imageBuffer : Buffer) (size : nat) : result string :=
  (resized <- Env.sharp_resize_raw env imageBuffer (size + 1) (size + 1) true ;;
   Ok (differenceHash_pixels resized size))%result.

Definition perceptualHash (env : Env.t) (imageBuffer : Buffer) (size : nat) : result string :=
  (resized <- Env.sharp_resize_raw env imageBuffer size size true ;;
   Ok (perceptualHash_pixels (Env.Math_cos env) (Env.Array_sort env) resized
         size))%result.

Definition advancedPerceptualHash (env : Env.t) (imageBuffer : Buffer) (size : nat)
  : result string :=
  (resized <- Env.sharp_resize_raw env imageBuffer size size true ;;
   blurred <- Env.sharp_blur_raw env resized size ;;
   Ok (advancedPerceptualHash_pixels (Env.Math_cos env) blurred size))%result.

Definition waveletHash (env : Env.t) (imageBuffer : Buffer) (size : nat) : result string :=
  (resized <- Env.sharp_resize_raw env imageBuffer size size true ;;
   Ok (waveletHash_pixels (Env.Array_sort env) resized size))%result.

Definition blockHash (env : Env.t) (imageBuffer : Buffer) (size : nat) : result string :=
  (resized <- Env.sharp_resize_raw env imageBuffer (size * 4) (size * 4) true ;;
   Ok (blockHash_pixels resized size))%result.

Definition structuralHash (env : Env.t) (imageBuffer : Buffer) (size : nat) : result string :=
  (resized <- Env.sharp_resize_raw env imageBuffer size size true ;;
   Ok (structuralHash_pixels (Env.Array_sort env) resized size))%result.

Definition colorHistogramHash (env : Env.t) (imageBuffer : Buffer) (size : nat)
  : result string :=
  (resized <- Env.sharp_resize_raw env imageBuffer size size false ;;
   Ok (colorHistogramHash_pixels resized))%result.

Definition gradientHash (env : Env.t) (imageBuffer : Buffer) (size : nat) : result string :=
  (resized <- Env.sharp_resize_raw env imageBuffer size size true ;;
   Ok (gradientHash_pixels (Env.Array_sort env) resized size))%result.

(** The [switch] of [generateHash]: the hash, the confidence and the
    metadata annotations of the selected algorithm. *)
Definition dispatch (env : Env.t) (imageBuffer : Buffer) (algorithm : string) (size : nat)
  : result (string * number * list (string * MetaValue)) :=
  (if String.eqb algorithm "average" then
     hash <- averageHash env imageBuffer size ;; Ok (hash, 1.0%float, [])
   else if String.eqb algorithm "dhash" then
     hash <- differenceHash env imageBuffer size ;; Ok (hash, 1.0%float, [])
   else if String.eqb algorithm "phash" then
     hash <- perceptualHash env imageBuffer size ;; Ok (hash, 1.0%float, [])
   else if String.eqb algorithm "perceptual" then
     hash <- advancedPerceptualHash env imageBuffer size ;; Ok (hash, 0.95%float, [])
   else if String.eqb algorithm "wavelet" then
     hash <- waveletHash env imageBuffer size ;; Ok (hash, 0.92%float, [])
   else if String.eqb algorithm "blockhash" then
     hash <- blockHash env imageBuffer size ;; Ok (hash, 0.90%float, [])
   else if String.eqb algorithm "structural" then
     hash <- structuralHash env imageBuffer size ;;
     Ok (hash, 0.88%float, [("structuralFeatures", MetaBool true)])
   else if String.eqb algorithm "colorhistogram" then
     hash <- colorHistogramHash env imageBuffer size ;;
     Ok (hash, 0.85%float, [("colorAnalysis", MetaBool true)])
   else if String.eqb algorithm "gradient" then
     hash <- gradientHash env imageBuffer size ;;
     Ok (hash, 0.87%float, [("gradientAnalysis", MetaBool true)])
   else Err (UnknownHashingAlgorithm algorithm))%result%string.

(** [generateHash].  Whatever is thrown inside the [try] block is rethrown
    as "Hash generation failed for algorithm ...".  The [size] argument is
    always given here; the default [size = 8] of the signature only serves
    callers that omit it. *)
Definition generateHash (env : Env.t) (imageBuffer : Buffer) (algorithm : string) (size : nat)
  : result HashResult.t :=
  match dispatch env imageBuffer algorithm size with
  | Ok (hash, confidence, metadata) =>
      Ok (HashResult.mk hash algorithm confidence
            (("size", MetaNumber size) :: metadata)%string)
  | Err error => Err (HashGenerationFailed algorithm error)
  end.

(** The algorithm names [generateHash] knows. *)
Definition known_algorithms : list string :=
  ["average"; "dhash"; "phash"; "perceptual"; "wavelet"; "blockhash";
   "structural"; "colorhistogram"; "gradient"]%string.

(** ** [VisualHasher]: options *)

Module Level.
Record t : Type := mk {
  algorithm : string;
  size : nat;
  threshold : number
}.
End Level.

Module Level4.
Record t : Type := mk {
  enabled : bool;
  apiEndpoint : option string;
  semanticThreshold : number
}.
End Level4.

(** An optional property of an options object: missing, present with the
    value [undefined], or present with a value. *)
Inductive property (A : Type) : Type :=
  | Absent
  | Undefined
  | Value (a : A).
Arguments Absent {A}.
Arguments Undefined {A}.
Arguments Value {A} a.

Module MultiLevelHashOptions.
Record t : Type := mk {
  level1 : property Level.t;
  level2 : property Level.t;
  level3 : property Level.t;
  level4 : property Level4.t
}.
End MultiLevelHashOptions.

(** [{ ...a, ...b }], property by property: an own property of [b]
    replaces that of [a], also when its value is [undefined]. *)
Definition spread_property {A : Type} (a b : property A) : property A :=
  match b with
  | Absent => a
  | _ => b
  end.

Definition spread (a b : MultiLevelHashOptions.t) : MultiLevelHashOptions.t :=
  MultiLevelHashOptions.mk
    (spread_property (MultiLevelHashOptions.level1 a) (MultiLevelHashOptions.level1 b))
    (spread_property (MultiLevelHashOptions.level2 a) (MultiLevelHashOptions.level2 b))
    (spread_property (MultiLevelHashOptions.level3 a) (MultiLevelHashOptions.level3 b))
    (spread_property (MultiLevelHashOptions.level4 a) (MultiLevelHashOptions.level4 b)).

(** [{}] *)
Definition no_options : MultiLevelHashOptions.t :=
  MultiLevelHashOptions.mk Absent Absent Absent Absent.

Definition defaultOptions : MultiLevelHashOptions.t :=
  MultiLevelHashOptions.mk
    (Value (Level.mk "dhash" 8 0.95%float))
    (Value (Level.mk "perceptual" 16 0.90%float))
    (Value (Level.mk "structural" 32 0.85%float))
    (Value (Level4.mk true None 0.80%float)).

(** An instance of [VisualHasher] is its [options] field. *)
Module VisualHasher.
Record t : Type := mk { options : MultiLevelHashOptions.t }.
End VisualHasher.

(** [constructor(private options: MultiLevelHashOptions = {})] *)
Definition new_VisualHasher (options : option MultiLevelHashOptions.t) : VisualHasher.t :=
  let options := match options with Some o => o | None => no_options end in
  VisualHasher.mk (spread defaultOptions options).

(** ** [VisualHasher]: progressive comparison

    The calls of [generateHash] are recorded, in order, in a trace: the
    record a spy on the method would keep. *)

Inductive event : Type :=
  | GenerateHash (imageBuffer : Buffer) (algorithm : string) (size : nat).

Definition traced (A : Type) : Type := list event -> result A * list event.

Definition ret {A : Type} (a : A) : traced A := fun trace => (Ok a, trace).

Definition tbind {A B : Type} (m : traced A) (f : A -> traced B) : traced B :=
  fun trace =>
    match m trace with
    | (Ok a, trace') => f a trace'
    | (Err e, trace') => (Err e, trace')
    end.

Definition lift {A : Type} (r : result A) : traced A := fun trace => (r, trace).

Declare Scope traced_scope.
Delimit Scope traced_scope with traced.
Notation "x <- c ;; k" := (tbind c (fun x => k))
  (at level 61, c at next level, right associativity) : traced_scope.

Definition call_generateHash (env : Env.t) (imageBuffer : Buffer) (algorithm : string)
    (size : nat) : traced HashResult.t :=
  fun trace =>
    (generateHash env imageBuffer algorithm size,
     trace ++ [GenerateHash imageBuffer algorithm size]).

Module ProgressiveResult.
Record t : Type := mk {
  level : nat;
  result : HashComparison.t;
  shouldContinue : bool
}.
End ProgressiveResult.

(** The result object of the two exits that compared nothing. *)
Definition placeholder (algorithm : string) : HashComparison.t :=
  HashComparison.mk false 0%float algorithm (Some (Differences.mk 0 [] high)).

(** [progressiveCompare] *)
Definition progressiveCompare (env : Env.t) (this : VisualHasher.t)
    (image1 image2 : Buffer) (options : option MultiLevelHashOptions.t)
  : traced ProgressiveResult.t :=
  let opts :=
    match options with
    | Some o => spread (VisualHasher.options this) o
    | None => VisualHasher.options this
    end in
  (returned <-
     match MultiLevelHashOptions.level1 opts with
     | Value level1 =>
         hash1 <- call_generateHash env image1 (Level.algorithm level1) (Level.size level1) ;;
         hash2 <- call_generateHash env image2 (Level.algorithm level1) (Level.size level1) ;;
         result <- lift (compareHashes (HashResult.hash hash1) (HashResult.hash hash2)
                           (Level.algorithm level1)) ;;
         if JS.ge (HashComparison.similarity result) (Level.threshold level1)
         then ret (Some (ProgressiveResult.mk 1 result false))
         else ret None
     | _ => ret None
     end ;;
   match returned with
   | Some r => ret r
   | None =>
   returned <-
     match MultiLevelHashOptions.level2 opts with
     | Value level2 =>
         hash1 <- call_generateHash env image1 (Level.algorithm level2) (Level.size level2) ;;
         hash2 <- call_generateHash env image2 (Level.algorithm level2) (Level.size level2) ;;
         result <- lift (compareHashes (HashResult.hash hash1) (HashResult.hash hash2)
                           (Level.algorithm level2)) ;;
         if JS.ge (HashComparison.similarity result) (Level.threshold level2)
         then ret (Some (ProgressiveResult.mk 2 result false))
         else ret None
     | _ => ret None
     end ;;
   match returned with
   | Some r => ret r
   | None =>
   returned <-
     match MultiLevelHashOptions.level3 opts with
     | Value level3 =>
         hash1 <- call_generateHash env image1 (Level.algorithm level3) (Level.size level3) ;;
         hash2 <- call_generateHash env image2 (Level.algorithm level3) (Level.size level3) ;;
         result <- lift (compareHashes (HashResult.hash hash1) (HashResult.hash hash2)
                           (Level.algorithm level3)) ;;
         if JS.ge (HashComparison.similarity result) (Level.threshold level3)
         then ret (Some (ProgressiveResult.mk 3 result false))
         else ret None
     | _ => ret None
     end ;;
   match returned with
   | Some r => ret r
   | None =>
   match MultiLevelHashOptions.level4 opts with
   | Value level4 =>
       if Level4.enabled level4
       then ret (ProgressiveResult.mk 4 (placeholder "semantic") true)
       else ret (ProgressiveResult.mk 3 (placeholder "progressive") false)
   | _ => ret (ProgressiveResult.mk 3 (placeholder "progressive") false)
   end
   end end end)%traced.

(** ** Exports *)

Module Exports.

Definition visualHasher : VisualHasher.t := new_VisualHasher None.

Definition quickHash (env : Env.t) (imageBuffer : Buffer) : result HashResult.t :=
  generateHash env imageBuffer "dhash" 8.

Definition perceptualHash (env : Env.t) (imageBuffer : Buffer) : result HashResult.t :=
  generateHash env imageBuffer "perceptual" 16.

Definition detailedHash (env : Env.t) (imageBuffer : Buffer) : result HashResult.t :=
  generateHash env imageBuffer "structural" 32.

Definition progressiveCompare (env : Env.t) (image1 image2 : Buffer)
    (options : option MultiLevelHashOptions.t) : traced ProgressiveResult.t :=
  progressiveCompare env visualHasher image1 image2 options.

End Exports.

(** ** Vocabulary of the statements *)

(** The string a sequence of bits is written as. *)
Definition hash_of_bits (bits : list bool) : string :=
  string_of_list_ascii (map (fun b : bool => if b then "1" else "0")%char bits).

(** The number of bits [generateHash] produces, by algorithm and size. *)
Definition hash_bits (algorithm : string) (size : nat) : nat :=
  (if String.eqb algorithm "average" then size * size
   else if String.eqb algorithm "dhash" then size * size
   else if String.eqb algorithm "phash" then Nat.min 8 size * Nat.min 8 size
   else if String.eqb algorithm "perceptual" then Nat.min (size * 2) (size * size)
   else if String.eqb algorithm "wavelet" then ((size + 1) / 2) * ((size + 1) / 2)
   else if String.eqb algorithm "blockhash" then size * size
   else if String.eqb algorithm "structural" then (size - 2) * (size - 2)
   else if String.eqb algorithm "colorhistogram" then 3
   else if String.eqb algorithm "gradient" then (size - 2) * (size - 2)
   else 0)%string.

(** What [sharp] answers to the one resize an algorithm asks of it: the
    grid is [size + 1] wide for the difference hash, [size * 4] for the
    block hash and [size] for the others, in greyscale except for the
    colour histogram. *)
Definition requested_pixels (env : Env.t) (imageBuffer : Buffer) (algorithm : string)
    (size : nat) : result Buffer :=
  (if String.eqb algorithm "dhash" then
     Env.sharp_resize_raw env imageBuffer (size + 1) (size + 1) true
   else if String.eqb algorithm "blockhash" then
     Env.sharp_resize_raw env imageBuffer (size * 4) (size * 4) true
   else if String.eqb algorithm "colorhistogram" then
     Env.sharp_resize_raw env imageBuffer size size false
   else Env.sharp_resize_raw env imageBuffer size size true)%string.

(** One tier of [progressiveCompare], without the trace: the two hashes
    and their comparison. *)
Definition tier_result (env : Env.t) (level : Level.t) (image1 image2 : Buffer)
  : result HashComparison.t :=
  (hash1 <- generateHash env image1 (Level.algorithm level) (Level.size level) ;;
   hash2 <- generateHash env image2 (Level.algorithm level) (Level.size level) ;;
   compareHashes (HashResult.hash hash1) (HashResult.hash hash2) (Level.algorithm level))%result.

(** The calls of [generateHash] a tier makes when both succeed. *)
Definition tier_calls (level : property Level.t) (image1 image2 : Buffer) : list event :=
  match level with
  | Value l =>
      [GenerateHash image1 (Level.algorithm l) (Level.size l);
       GenerateHash image2 (Level.algorithm l) (Level.size l)]
  | _ => []
  end.

(** A tier that does not stop the escalation: not configured, or compared
    with a similarity that is not at least its threshold. *)
Definition tier_passed (env : Env.t) (level : property Level.t) (image1 image2 : Buffer)
  : Prop :=
  match level with
  | Value l =>
      exists r, tier_result env l image1 image2 = Ok r
                /\ JS.ge (HashComparison.similarity r) (Level.threshold l) = false
  | _ => True
  end.

(** The options a call of [progressiveCompare] works with. *)
Definition effective_options (this : VisualHasher.t) (options : option MultiLevelHashOptions.t)
  : MultiLevelHashOptions.t :=
  match options with
  | Some o => spread (VisualHasher.options this) o
  | None => VisualHasher.options this
  end.

(** The 4x4-block means [blockHash] thresholds, block row by block row. *)
Definition block_sum (pixels : Uint8Array) (size by_ bx : nat) : number :=
  fold_left
    (fun blockSum y =>
       fold_left
         (fun blockSum x =>
            (blockSum + px pixels ((by_ * 4 + y) * (size * 4) + (bx * 4 + x)))%float)
         (seq 0 4) blockSum)
    (seq 0 4) 0%float.

Definition block_means (pixels : Uint8Array) (size : nat) : list number :=
  flat_map
    (fun by_ => map (fun bx => (block_sum pixels size by_ bx / JS.of_nat 16)%float) (seq 0 size))
    (seq 0 size).

(** The encoder policy the specification words for the block algorithm:
    each coefficient against the mean of the coefficient sequence. *)
Definition mean_of (coefficients : list number) : number :=
  (fold_left (fun sum val => sum + val) coefficients 0
   / JS.of_nat (List.length coefficients))%float.

Definition encode_against_mean (coefficients : list number) : string :=
  hash_of_bits (map (fun c => JS.gt c (mean_of coefficients)) coefficients).

(** The integer sum of the sixteen samples of a block, when all are there. *)
Definition block_total (pixels : Uint8Array) (size by_ bx : nat) : Z :=
  fold_left
    (fun total y =>
       fold_left
         (fun total x =>
            match nth_error pixels ((by_ * 4 + y) * (size * 4) + (bx * 4 + x)) with
            | Some b => (total + Z.of_N (Byte.to_N b))%Z
            | None => total
            end)
         (seq 0 4) total)
    (seq 0 4) 0%Z.

(** One tier block of [progressiveCompare]: [Some] result when the tier
    returns, [None] when the escalation goes on. *)
Definition tier_block (env : Env.t) (n : nat) (level : property Level.t)
    (image1 image2 : Buffer) : traced (option ProgressiveResult.t) :=
  (match level with
   | Value l =>
       hash1 <- call_generateHash env image1 (Level.algorithm l) (Level.size l) ;;
       hash2 <- call_generateHash env image2 (Level.algorithm l) (Level.size l) ;;
       result <- lift (compareHashes (HashResult.hash hash1) (HashResult.hash hash2)
                         (Level.algorithm l)) ;;
       if JS.ge (HashComparison.similarity result) (Level.threshold l)
       then ret (Some (ProgressiveResult.mk n result false))
       else ret None
   | _ => ret None
   end)%traced.

(** Sample inputs: two 3x3 greyscale grids, given as their raw samples. *)
Definition sample_image_a : Buffer := map u8 [10; 20; 30; 40; 50; 60; 70; 80; 90].
Definition sample_image_b : Buffer := map u8 [90; 20; 30; 40; 10; 60; 70; 80; 5].

(** A pixel source that returns the bytes of the image as the samples. *)
Definition raw_env : Env.t := stub_env (fun imageBuffer => Ok imageBuffer).

(** A pixel source that refuses every grid but the 2 by 2 greyscale one,
    for which it delivers a single sample. *)
Definition one_sample_env : Env.t :=
  Env.mk (fun _ width height grayscale =>
            if (width =? 2) && (height =? 2) && grayscale then Ok [u8 200]
            else Err (ExternalError "unsupported size"))
         (fun resized _ => Ok resized)
         (fun _ => 1%float)
         insertion_sort.

(** How one optional property comes out of the three layers: the defaults,
    the constructor's options, the options of the call. *)
Definition layered {A : Type} (effective default constructed called : property A) : Prop :=
  (called <> Absent -> effective = called)
  /\ (called = Absent -> constructed <> Absent -> effective = constructed)
  /\ (called = Absent -> constructed = Absent -> effective = default).

(** A string of the characters 0 and 1. *)
Definition is_bit_string (s : string) : Prop :=
  forall i c, String.get i s = Some c -> c = "0"%char \/ c = "1"%char.

(** The coefficient [simpleDCT] stores at index [u * size + v]. *)
Definition dct_coefficient (Math_cos : number -> number) (pixels : Uint8Array)
    (size u v : nat) : number :=
  fold_left
    (fun sum x =>
       fold_left
         (fun sum y =>
            let cos1 :=
              Math_cos ((2 * JS.of_nat x + 1) * JS.of_nat u * Math_PI
                        / (2 * JS.of_nat size))%float in
            let cos2 :=
              Math_cos ((2 * JS.of_nat y + 1) * JS.of_nat v * Math_PI
                        / (2 * JS.of_nat size))%float in
            (sum + px pixels (y * size + x) * cos1 * cos2)%float)
         (seq 0 size) sum)
    (seq 0 size) 0%float.

(** The gradient magnitude [calculateGradients] computes at the interior
    sample [(y, x)]. *)
Definition gradient_magnitude (pixels : Uint8Array) (size y x : nat) : number :=
  let idx := y * size + x in
  let gx := (px pixels (idx + 1) - px pixels (idx - 1))%float in
  let gy := (px pixels ((y + 1) * size + x) - px pixels ((y - 1) * size + x))%float in
  PrimFloat.sqrt (gx * gx + gy * gy)%float.

(** An array in ascending order: the result the standard prescribes for
    [sort((a, b) => a - b)] on values without NaN. *)
Definition ascending (values : list number) : Prop :=
  StronglySorted (fun a b => PrimFloat.leb a b = true) values.

(** How many of the values are below [m], and how many above. *)
Definition below (m : number) (values : list number) : nat :=
  List.length (filter (fun v => PrimFloat.ltb v m) values).

Definition above (m : number) (values : list number) : nat :=
  List.length (filter (fun v => PrimFloat.ltb m v) values).

(** [haarWavelet]: the array after the copy of the input. *)
Definition haar_input (pixels : Uint8Array) (size : nat) : list number :=
  fold_left (fun result i => array_set result i (px pixels i))
    (seq 0 (List.length pixels)) (repeat nan (size * size)).

(** [haarWavelet]: the rows [i] and [i + step] replaced, column by column,
    by their half-sum and their half-difference. *)
Definition haar_rows (size step : nat) (result : list number) (i : nat) : list number :=
  fold_left
    (fun result j =>
       let idx1 := i * size + j in
       let idx2 := (i + step) * size + j in
       let avg := ((JS.index result idx1 + JS.index result idx2) / 2)%float in
       let diff := ((JS.index result idx1 - JS.index result idx2) / 2)%float in
       let result := array_set result idx1 avg in
       array_set result idx2 diff)
    (seq 0 size) result.

(** The multiples of [d] below [size], in ascending order. *)
Definition multiples_below (d size : nat) : list nat :=
  map (fun k => k * d) (seq 0 ((size + d - 1) / d)).

(* ===================================================================== *)
(** * Properties *)
(* ===================================================================== *)

(** ** The comparison loops *)

Lemma count_loop_filter (p : nat -> bool) (l : list nat) (d : nat) :
  fold_left (fun distance i => if p i then distance + 1 else distance) l d
  = d + List.length (filter p l).
Proof.
  revert d. induction l as [|i l IH]; intros d; simpl.
  - lia.
  - rewrite IH. destruct (p i); simpl; lia.
Qed.

Lemma push_loop_filter (p : nat -> bool) (l acc : list nat) :
  fold_left (fun positions i => if p i then positions ++ [i] else positions) l acc
  = acc ++ filter p l.
Proof.
  revert acc. induction l as [|i l IH]; intros acc; simpl.
  - now rewrite app_nil_r.
  - rewrite IH. destruct (p i); [now rewrite <- app_assoc|reflexivity].
Qed.

Lemma calculateHammingDistance_eq_length (hash1 hash2 : string) :
  String.length hash1 = String.length hash2 ->
  calculateHammingDistance hash1 hash2 = Ok (List.length (mismatches hash1 hash2)).
Proof.
  intros H. unfold calculateHammingDistance.
  rewrite (proj2 (Nat.eqb_eq _ _) H). simpl.
  now rewrite count_loop_filter.
Qed.

Lemma calculateHammingDistance_neq_length (hash1 hash2 : string) :
  String.length hash1 <> String.length hash2 ->
  calculateHammingDistance hash1 hash2 = Err HashLengthsMustBeEqual.
Proof.
  intros H. unfold calculateHammingDistance.
  now rewrite (proj2 (Nat.eqb_neq _ _) H).
Qed.

Lemma seq_sorted (n s : nat) : StronglySorted lt (seq s n).
Proof.
  revert s. induction n as [|n IH]; intros s; simpl; constructor.
  - apply IH.
  - apply Forall_forall. intros x Hx. apply in_seq in Hx. lia.
Qed.

Lemma filter_sorted (p : nat -> bool) (l : list nat) :
  StronglySorted lt l -> StronglySorted lt (filter p l).
Proof.
  induction 1 as [|a l Hs IH Ha]; simpl; [constructor|].
  destruct (p a); [|exact IH].
  constructor; [exact IH|].
  apply Forall_forall. intros x Hx. apply filter_In in Hx.
  rewrite Forall_forall in Ha. now apply Ha.
Qed.

Lemma mismatches_sorted (hash1 hash2 : string) :
  StronglySorted lt (mismatches hash1 hash2).
Proof. apply filter_sorted, seq_sorted. Qed.

Lemma option_ascii_eqb_eq (a b : option ascii) :
  option_ascii_eqb a b = true <-> a = b.
Proof.
  destruct a as [x|], b as [y|]; simpl; try (split; congruence).
  rewrite Ascii.eqb_eq. split; congruence.
Qed.

Lemma char_differs_true (hash1 hash2 : string) (i : nat) :
  char_differs hash1 hash2 i = true <-> String.get i hash1 <> String.get i hash2.
Proof.
  unfold char_differs. rewrite negb_true_iff, <- not_true_iff_false.
  now rewrite option_ascii_eqb_eq.
Qed.

Lemma In_mismatches (hash1 hash2 : string) (i : nat) :
  In i (mismatches hash1 hash2) <->
  i < String.length hash1 /\ String.get i hash1 <> String.get i hash2.
Proof.
  unfold mismatches. rewrite filter_In, in_seq, char_differs_true. intuition lia.
Qed.

Lemma mismatches_refl (hash : string) : mismatches hash hash = [].
Proof.
  unfold mismatches. induction (seq 0 (String.length hash)) as [|i l IH]; simpl; [reflexivity|].
  unfold char_differs at 1.
  now rewrite (proj2 (option_ascii_eqb_eq _ _) eq_refl).
Qed.

Lemma length_neq_string_neq (hash1 hash2 : string) :
  String.length hash1 <> String.length hash2 -> String.eqb hash1 hash2 = false.
Proof. intros H. apply String.eqb_neq. congruence. Qed.

(** What [compareHashes] returns on two different strings of one length. *)
Lemma compareHashes_unequal (hash1 hash2 algorithm : string) :
  String.length hash1 = String.length hash2 ->
  hash1 <> hash2 ->
  let d := List.length (mismatches hash1 hash2) in
  let similarity := (1 - JS.of_nat d / JS.of_nat (String.length hash1))%float in
  compareHashes hash1 hash2 algorithm =
  Ok (HashComparison.mk (JS.strict_eq similarity 1%float) similarity algorithm
        (Some (Differences.mk d (mismatches hash1 hash2)
                 (if JS.gt similarity 0.8%float then low
                  else if JS.gt similarity 0.6%float then medium
                  else high)))).
Proof.
  intros Hlen Hneq. unfold compareHashes.
  rewrite (proj2 (String.eqb_neq _ _) Hneq).
  rewrite (calculateHammingDistance_eq_length _ _ Hlen). simpl.
  now rewrite push_loop_filter.
Qed.

Lemma compareHashes_equal (hash algorithm : string) :
  compareHashes hash hash algorithm = Ok (HashComparison.mk true 1%float algorithm None).
Proof. unfold compareHashes. now rewrite String.eqb_refl. Qed.

(** C2. On two bit-strings of one length [compareHashes] returns: as
    differing-bit count the number of positions at which they differ; as
    differing positions every mismatching index, in ascending order; as
    similarity [1 - count / length] when the strings differ, and [1] with
    no differing bit when they are equal.  "1010101010101010" against
    "1010101010101011" gives count 1, similarity 0.9375, severity low;
    against "0000000000000000" it gives count 8, similarity 0.5, severity
    high. *)
Theorem compareHashes_hamming_similarity :
  (forall hash1 hash2 algorithm : string,
      String.length hash1 = String.length hash2 ->
      exists r,
        compareHashes hash1 hash2 algorithm = Ok r
        /\ differingBitCount r = List.length (mismatches hash1 hash2)
        /\ differingBitPositions r = mismatches hash1 hash2
        /\ StronglySorted lt (differingBitPositions r)
        /\ (forall i, In i (differingBitPositions r) <->
                      i < String.length hash1 /\ String.get i hash1 <> String.get i hash2)
        /\ (hash1 <> hash2 ->
            HashComparison.similarity r =
            (1 - JS.of_nat (differingBitCount r) / JS.of_nat (String.length hash1))%float)
        /\ (hash1 = hash2 ->
            HashComparison.similarity r = 1%float /\ differingBitCount r = 0))
  /\ compareHashes "1010101010101010" "1010101010101011" "dhash" =
     Ok (HashComparison.mk false 0.9375%float "dhash"
           (Some (Differences.mk 1 [15] low)))
  /\ compareHashes "1010101010101010" "0000000000000000" "dhash" =
     Ok (HashComparison.mk false 0.5%float "dhash"
           (Some (Differences.mk 8 [0; 2; 4; 6; 8; 10; 12; 14] high))).
Proof.
  split; [|split; vm_compute; reflexivity].
  intros hash1 hash2 algorithm Hlen.
  destruct (String.eqb_spec hash1 hash2) as [->|Hneq].
  - eexists. split; [apply compareHashes_equal|].
    unfold differingBitCount, differingBitPositions; simpl.
    rewrite mismatches_refl. simpl.
    split; [reflexivity|]. split; [reflexivity|]. split; [constructor|].
    split; [|split; [congruence|auto]].
    intros i. split; [contradiction|]. intros [_ H]. congruence.
  - eexists. split; [apply (compareHashes_unequal _ _ _ Hlen Hneq)|].
    unfold differingBitCount, differingBitPositions; simpl.
    split; [reflexivity|]. split; [reflexivity|].
    split; [apply mismatches_sorted|].
    split; [intros i; apply In_mismatches|].
    split; [reflexivity|contradiction].
Qed.

Lemma compareHashes_hamming_similarity_witness :
  exists r,
    compareHashes "1100" "1001" "average" = Ok r
    /\ differingBitCount r = 2
    /\ differingBitPositions r = [1; 3]
    /\ HashComparison.similarity r = 0.5%float.
Proof.
  destruct (proj1 compareHashes_hamming_similarity "1100" "1001" "average" eq_refl)%string
    as [r (Hr & Hc & Hp & _ & _ & Hs & _)].
  exists r. split; [exact Hr|]. split; [exact Hc|]. split; [exact Hp|].
  rewrite Hs, Hc; [reflexivity|discriminate].
Defined.

(** C3. For two different bit-strings of one length, the severity is [low]
    exactly when the similarity is strictly greater than 0.8, [medium]
    exactly when it is strictly greater than 0.6 and not greater than 0.8,
    [high] otherwise; a similarity equal to 0.8 is [medium] and one equal
    to 0.6 is [high], and both boundary values are reached. *)
Theorem compareHashes_severity_boundaries :
  (forall hash1 hash2 algorithm : string,
      String.length hash1 = String.length hash2 ->
      hash1 <> hash2 ->
      exists r d,
        compareHashes hash1 hash2 algorithm = Ok r
        /\ HashComparison.differences r = Some d
        /\ let s := HashComparison.similarity r in
           (Differences.severity d = low <-> JS.gt s 0.8%float = true)
           /\ (Differences.severity d = medium <->
               JS.gt s 0.6%float = true /\ JS.gt s 0.8%float = false)
           /\ (Differences.severity d = high <->
               JS.gt s 0.6%float = false /\ JS.gt s 0.8%float = false)
           /\ (s = 0.8%float -> Differences.severity d = medium)
           /\ (s = 0.6%float -> Differences.severity d = high))
  /\ compareHashes "11111" "11110" "dhash" =
     Ok (HashComparison.mk false 0.8%float "dhash" (Some (Differences.mk 1 [4] medium)))
  /\ compareHashes "11111" "11100" "dhash" =
     Ok (HashComparison.mk false 0.6%float "dhash" (Some (Differences.mk 2 [3; 4] high))).
Proof.
  split; [|split; vm_compute; reflexivity].
  intros hash1 hash2 algorithm Hlen Hneq.
  do 2 eexists. split; [apply (compareHashes_unequal _ _ _ Hlen Hneq)|].
  split; [reflexivity|]. cbn zeta. cbn [HashComparison.similarity Differences.severity].
  generalize (1 - JS.of_nat (List.length (mismatches hash1 hash2))
                  / JS.of_nat (String.length hash1))%float.
  intros s.
  split; [|split; [|split; [|split]]].
  - destruct (JS.gt s 0.8%float); [tauto|].
    destruct (JS.gt s 0.6%float); split; discriminate.
  - destruct (JS.gt s 0.8%float).
    + split; [discriminate|]. intros [_ H]. discriminate.
    + destruct (JS.gt s 0.6%float); [tauto|]. split; [discriminate|]. intros [H _]. discriminate.
  - destruct (JS.gt s 0.8%float).
    + split; [discriminate|]. intros [_ H]. discriminate.
    + destruct (JS.gt s 0.6%float); [|tauto]. split; [discriminate|]. intros [H _]. discriminate.
  - intros ->. reflexivity.
  - intros ->. reflexivity.
Qed.

Lemma compareHashes_severity_boundaries_witness :
  exists r d,
    compareHashes "1111111111" "1111111100" "phash" = Ok r
    /\ HashComparison.differences r = Some d
    /\ HashComparison.similarity r = 0.8%float
    /\ Differences.severity d = medium.
Proof.
  destruct (proj1 compareHashes_severity_boundaries
              "1111111111" "1111111100" "phash" eq_refl)%string
    as [r [d (Hr & Hd & _ & _ & _ & Hb & _)]]; [discriminate|].
  exists r, d. split; [exact Hr|]. split; [exact Hd|].
  assert (HashComparison.similarity r = 0.8%float) as Hs.
  { vm_compute in Hr. injection Hr as <-. reflexivity. }
  split; [exact Hs|]. exact (Hb Hs).
Defined.

Lemma compareHashes_unequal_length (hash1 hash2 algorithm : string) :
  String.length hash1 <> String.length hash2 ->
  compareHashes hash1 hash2 algorithm = Err HashLengthsMustBeEqual.
Proof.
  intros H. unfold compareHashes. rewrite (length_neq_string_neq _ _ H).
  now rewrite (calculateHammingDistance_neq_length _ _ H).
Qed.

(** C4. Two bit-strings of unequal length are never compared:
    [compareHashes] fails with the length-mismatch error and returns no
    result, whatever the contents of the strings. *)
Theorem compareHashes_length_mismatch (hash1 hash2 algorithm : string) :
  String.length hash1 <> String.length hash2 ->
  compareHashes hash1 hash2 algorithm = Err HashLengthsMustBeEqual
  /\ (forall r, compareHashes hash1 hash2 algorithm <> Ok r).
Proof.
  intros H.
  assert (compareHashes hash1 hash2 algorithm = Err HashLengthsMustBeEqual) as E.
  { unfold compareHashes. rewrite (length_neq_string_neq _ _ H).
    now rewrite (calculateHammingDistance_neq_length _ _ H). }
  split; [exact E|]. intros r. rewrite E. discriminate.
Qed.

Lemma compareHashes_length_mismatch_witness :
  compareHashes "1010101010101010" "101010101010101" "dhash" = Err HashLengthsMustBeEqual.
Proof.
  apply (compareHashes_length_mismatch "1010101010101010" "101010101010101" "dhash")%string.
  simpl. lia.
Defined.

(** ** Loops that build a hash or a list *)

Lemma hash_of_bits_length (bits : list bool) :
  String.length (hash_of_bits bits) = List.length bits.
Proof.
  unfold hash_of_bits. induction bits as [|b bits IH]; simpl; [reflexivity|].
  now rewrite IH.
Qed.

Lemma string_append_nil_r (s : string) : (s ++ "")%string = s.
Proof. induction s as [|c s IH]; simpl; [reflexivity|now rewrite IH]. Qed.

Lemma string_append_assoc (a b c : string) : ((a ++ b) ++ c = a ++ (b ++ c))%string.
Proof. induction a as [|x a IH]; simpl; [reflexivity|now rewrite IH]. Qed.

Lemma hash_of_bits_app (a b : list bool) :
  hash_of_bits (a ++ b) = (hash_of_bits a ++ hash_of_bits b)%string.
Proof.
  unfold hash_of_bits. induction a as [|x a IH]; simpl; [reflexivity|now rewrite IH].
Qed.

Lemma push_bit_loop {A : Type} (f : A -> bool) (l : list A) (hash : string) :
  fold_left (fun hash a => push_bit hash (f a)) l hash
  = (hash ++ hash_of_bits (map f l))%string.
Proof.
  revert hash. induction l as [|a l IH]; intros hash; simpl.
  - now rewrite string_append_nil_r.
  - rewrite IH. unfold push_bit. now rewrite string_append_assoc.
Qed.

Lemma push_bit_loop2 {A B : Type} (f : A -> B -> bool) (xs : list B) (ys : list A)
    (hash : string) :
  fold_left (fun hash y => fold_left (fun hash x => push_bit hash (f y x)) xs hash) ys hash
  = (hash ++ hash_of_bits (flat_map (fun y => map (f y) xs) ys))%string.
Proof.
  revert hash. induction ys as [|y ys IH]; intros hash; simpl.
  - now rewrite string_append_nil_r.
  - rewrite IH, push_bit_loop, hash_of_bits_app. now rewrite string_append_assoc.
Qed.

Lemma push_loop {A B : Type} (g : A -> B) (l : list A) (acc : list B) :
  fold_left (fun acc a => acc ++ [g a]) l acc = acc ++ map g l.
Proof.
  revert acc. induction l as [|a l IH]; intros acc; simpl.
  - now rewrite app_nil_r.
  - rewrite IH. now rewrite <- app_assoc.
Qed.

Lemma push_loop2 {A B C : Type} (g : A -> B -> C) (xs : list B) (ys : list A) (acc : list C) :
  fold_left (fun acc y => fold_left (fun acc x => acc ++ [g y x]) xs acc) ys acc
  = acc ++ flat_map (fun y => map (g y) xs) ys.
Proof.
  revert acc. induction ys as [|y ys IH]; intros acc; simpl.
  - now rewrite app_nil_r.
  - rewrite IH, push_loop. now rewrite <- app_assoc.
Qed.

Lemma flat_map_rows_length {A B C : Type} (g : A -> B -> C) (xs : list B) (ys : list A) :
  List.length (flat_map (fun y => map (g y) xs) ys) = List.length ys * List.length xs.
Proof.
  induction ys as [|y ys IH]; simpl; [reflexivity|].
  now rewrite length_app, length_map, IH.
Qed.

Lemma map_flat_map_rows {A B C D : Type} (h : C -> D) (g : A -> B -> C)
    (xs : list B) (ys : list A) :
  map h (flat_map (fun y => map (g y) xs) ys)
  = flat_map (fun y => map (fun x => h (g y x)) xs) ys.
Proof.
  induction ys as [|y ys IH]; simpl; [reflexivity|].
  now rewrite map_app, map_map, IH.
Qed.

Lemma flat_map_rows_nth {C : Type} (g : nat -> nat -> C) (rows cols y x : nat) :
  y < rows -> x < cols ->
  nth_error (flat_map (fun y => map (g y) (seq 0 cols)) (seq 0 rows)) (y * cols + x)
  = Some (g y x).
Proof.
  intros Hy Hx.
  assert (forall s n, y < n ->
            nth_error (flat_map (fun y => map (g y) (seq 0 cols)) (seq s n)) (y * cols + x)
            = Some (g (s + y) x)) as H.
  { clear Hy. induction y as [|y IH]; intros s n Hn.
    - destruct n as [|n]; [lia|]. simpl.
      rewrite nth_error_app1 by (rewrite length_map, length_seq; lia).
      rewrite nth_error_map, nth_error_seq.
      destruct (Nat.ltb_spec x cols); [|lia]. simpl. now rewrite Nat.add_0_r.
    - destruct n as [|n]; [lia|]. simpl.
      rewrite nth_error_app2 by (rewrite length_map, length_seq; lia).
      rewrite length_map, length_seq.
      replace (cols + y * cols + x - cols) with (y * cols + x) by lia.
      rewrite (IH (S s) n) by lia. f_equal. f_equal. lia. }
  now rewrite (H 0 rows Hy).
Qed.

Lemma hash_of_bits_get (bits : list bool) (i : nat) :
  String.get i (hash_of_bits bits)
  = option_map (fun b : bool => if b then "1" else "0")%char (nth_error bits i).
Proof.
  unfold hash_of_bits. revert i. induction bits as [|b bits IH]; intros [|i]; simpl; auto.
Qed.

(** ** Closed forms of the algorithms *)

Lemma averageHash_pixels_bits (pixels : Uint8Array) :
  averageHash_pixels pixels
  = hash_of_bits
      (map (fun i => JS.gt (px pixels i)
                       (fold_left (fun sum pixel => sum + sample pixel) pixels 0
                        / JS.of_nat (List.length pixels))%float)
         (seq 0 (List.length pixels))).
Proof. unfold averageHash_pixels. now rewrite push_bit_loop. Qed.

Lemma differenceHash_pixels_bits (pixels : Uint8Array) (size : nat) :
  differenceHash_pixels pixels size
  = hash_of_bits
      (flat_map
         (fun y => map (fun x => JS.gt (px pixels (y * (size + 1) + x))
                                   (px pixels (y * (size + 1) + x + 1)))
                     (seq 0 size))
         (seq 0 size)).
Proof.
  unfold differenceHash_pixels.
  now rewrite (push_bit_loop2
                 (fun y x => JS.gt (px pixels (y * (size + 1) + x))
                               (px pixels (y * (size + 1) + x + 1)))).
Qed.

Lemma blockHash_pixels_bits (pixels : Uint8Array) (size : nat) :
  blockHash_pixels pixels size
  = hash_of_bits (map (fun c => JS.gt c 128%float) (block_means pixels size)).
Proof.
  unfold blockHash_pixels. cbv zeta.
  rewrite (push_bit_loop2
             (fun by_ bx => JS.gt (block_sum pixels size by_ bx / JS.of_nat (4 * 4))%float
                              128%float)).
  simpl String.append. f_equal. unfold block_means.
  now rewrite map_flat_map_rows.
Qed.

Lemma calculateGradients_length (pixels : Uint8Array) (size : nat) :
  List.length (calculateGradients pixels size) = (size - 2) * (size - 2).
Proof.
  unfold calculateGradients.
  rewrite (push_loop2
             (fun y x =>
                PrimFloat.sqrt
                  ((px pixels (y * size + x + 1) - px pixels (y * size + x - 1))
                   * (px pixels (y * size + x + 1) - px pixels (y * size + x - 1))
                   + (px pixels ((y + 1) * size + x) - px pixels ((y - 1) * size + x))
                     * (px pixels ((y + 1) * size + x) - px pixels ((y - 1) * size + x)))%float)).
  simpl. now rewrite flat_map_rows_length, length_seq.
Qed.

Lemma averageHash_pixels_length (pixels : Uint8Array) :
  String.length (averageHash_pixels pixels) = List.length pixels.
Proof.
  now rewrite averageHash_pixels_bits, hash_of_bits_length, length_map, length_seq.
Qed.

Lemma differenceHash_pixels_length (pixels : Uint8Array) (size : nat) :
  String.length (differenceHash_pixels pixels size) = size * size.
Proof.
  now rewrite differenceHash_pixels_bits, hash_of_bits_length, flat_map_rows_length, length_seq.
Qed.

Lemma block_means_length (pixels : Uint8Array) (size : nat) :
  List.length (block_means pixels size) = size * size.
Proof. unfold block_means. now rewrite flat_map_rows_length, length_seq. Qed.

Lemma blockHash_pixels_length (pixels : Uint8Array) (size : nat) :
  String.length (blockHash_pixels pixels size) = size * size.
Proof.
  now rewrite blockHash_pixels_bits, hash_of_bits_length, length_map, block_means_length.
Qed.

Lemma perceptualHash_pixels_length (Math_cos : number -> number) (Array_sort : Sort)
    (pixels : Uint8Array) (size : nat) :
  String.length (perceptualHash_pixels Math_cos Array_sort pixels size)
  = Nat.min 8 size * Nat.min 8 size.
Proof.
  unfold perceptualHash_pixels. cbv zeta.
  rewrite push_bit_loop. simpl String.append.
  rewrite hash_of_bits_length, length_map.
  rewrite (push_loop2 (fun i j => JS.index (simpleDCT Math_cos pixels size) (i * size + j))).
  simpl. now rewrite flat_map_rows_length, length_seq.
Qed.

Lemma advancedPerceptualHash_pixels_length (Math_cos : number -> number)
    (blurredPixels : Uint8Array) (size : nat) :
  String.length (advancedPerceptualHash_pixels Math_cos blurredPixels size)
  = Nat.min (size * 2) (size * size).
Proof.
  unfold advancedPerceptualHash_pixels. cbv zeta.
  rewrite push_bit_loop. simpl String.append.
  rewrite hash_of_bits_length, length_map, push_loop. simpl.
  now rewrite length_map, length_seq.
Qed.

Lemma waveletHash_pixels_length (Array_sort : Sort) (pixels : Uint8Array) (size : nat) :
  String.length (waveletHash_pixels Array_sort pixels size)
  = ((size + 1) / 2) * ((size + 1) / 2).
Proof.
  unfold waveletHash_pixels. cbv zeta.
  rewrite push_bit_loop. simpl String.append.
  rewrite hash_of_bits_length, length_map.
  rewrite (push_loop2 (fun i j => JS.index (haarWavelet pixels size) (i * size + j))).
  simpl. now rewrite flat_map_rows_length, length_seq.
Qed.

Lemma structuralHash_pixels_length (Array_sort : Sort) (pixels : Uint8Array) (size : nat) :
  String.length (structuralHash_pixels Array_sort pixels size) = (size - 2) * (size - 2).
Proof.
  unfold structuralHash_pixels. cbv zeta.
  rewrite push_bit_loop. simpl String.append.
  now rewrite hash_of_bits_length, length_map, calculateGradients_length.
Qed.

Lemma gradientHash_pixels_length (Array_sort : Sort) (pixels : Uint8Array) (size : nat) :
  String.length (gradientHash_pixels Array_sort pixels size) = (size - 2) * (size - 2).
Proof.
  unfold gradientHash_pixels. cbv zeta.
  rewrite push_bit_loop. simpl String.append.
  now rewrite hash_of_bits_length, length_map, calculateGradients_length.
Qed.

Lemma colorHistogramHash_pixels_length (pixels : Uint8Array) :
  String.length (colorHistogramHash_pixels pixels) = 3.
Proof.
  unfold colorHistogramHash_pixels. cbv zeta.
  rewrite push_bit_loop. simpl String.append.
  rewrite hash_of_bits_length. reflexivity.
Qed.

(** ** Facts about numbers *)

Lemma SFltb_nan_r (f : spec_float) : SFltb f S754_nan = false.
Proof. destruct f as [s|s| |s m e]; try destruct s; reflexivity. Qed.

Lemma gt_nan_l (x : number) : JS.gt nan x = false.
Proof.
  unfold JS.gt. rewrite FloatAxioms.ltb_spec.
  replace (Prim2SF nan) with S754_nan by reflexivity. apply SFltb_nan_r.
Qed.

Lemma gt_nan_r (x : number) : JS.gt x nan = false.
Proof. unfold JS.gt. now rewrite FloatAxioms.ltb_spec. Qed.

(** [s >= s] holds for every number but NaN. *)
Lemma ge_refl (s : number) : JS.strict_eq s s = true -> JS.ge s s = true.
Proof.
  unfold JS.strict_eq, JS.ge. rewrite FloatAxioms.eqb_spec, FloatAxioms.leb_spec.
  unfold SFeqb, SFleb. now destruct (SFcompare (Prim2SF s) (Prim2SF s)) as [[]|].
Qed.

(** *** Checks over ranges of small integers

    The facts below hold on finite ranges and are established by running
    the operations on every element. *)

Lemma wB_value : wB = 9223372036854775808%Z.
Proof. reflexivity. Qed.

Lemma to_Z_of_Z_small (z : Z) :
  (0 <= z < 4611686018427387904)%Z -> Uint63.to_Z (Uint63.of_Z z) = z.
Proof.
  intros H. rewrite Uint63.of_Z_spec, wB_value. apply Z.mod_small. lia.
Qed.

Lemma of_Z_add (a b : Z) : (Uint63.of_Z a + Uint63.of_Z b)%uint63 = Uint63.of_Z (a + b).
Proof.
  apply Uint63.to_Z_inj.
  rewrite Uint63.add_spec, !Uint63.of_Z_spec.
  symmetry. apply Z.add_mod. rewrite wB_value. discriminate.
Qed.

Lemma of_Z_mul (a b : Z) : (Uint63.of_Z a * Uint63.of_Z b)%uint63 = Uint63.of_Z (a * b).
Proof.
  apply Uint63.to_Z_inj.
  rewrite Uint63.mul_spec, !Uint63.of_Z_spec.
  symmetry. apply Z.mul_mod. rewrite wB_value. discriminate.
Qed.

Lemma ltb_of_Z (a b : Z) :
  (0 <= a < 4611686018427387904)%Z -> (0 <= b < 4611686018427387904)%Z ->
  (Uint63.of_Z a <? Uint63.of_Z b)%uint63 = (a <? b)%Z.
Proof.
  intros Ha Hb. apply eq_true_iff_eq.
  rewrite Uint63.ltb_spec, !to_Z_of_Z_small by assumption.
  symmetry. apply Z.ltb_lt.
Qed.

Lemma leb_of_Z (a b : Z) :
  (0 <= a < 4611686018427387904)%Z -> (0 <= b < 4611686018427387904)%Z ->
  (Uint63.of_Z a <=? Uint63.of_Z b)%uint63 = (a <=? b)%Z.
Proof.
  intros Ha Hb. apply eq_true_iff_eq.
  rewrite Uint63.leb_spec, !to_Z_of_Z_small by assumption.
  symmetry. apply Z.leb_le.
Qed.

(** [p] on the [fuel] integers from [i] on. *)
Fixpoint int_forall (fuel : nat) (i : int) (p : int -> bool) : bool :=
  match fuel with
  | 0 => true
  | S fuel' => p i && int_forall fuel' (i + 1)%uint63 p
  end.

Lemma int_forall_sound (fuel : nat) (i : int) (p : int -> bool) (z : Z) :
  int_forall fuel i p = true ->
  (Uint63.to_Z i <= z < Uint63.to_Z i + Z.of_nat fuel)%Z ->
  (z < 4611686018427387904)%Z ->
  p (Uint63.of_Z z) = true.
Proof.
  revert i. induction fuel as [|fuel IH]; intros i H Hz Hsmall; [lia|].
  simpl in H. apply andb_true_iff in H. destruct H as [H0 H1].
  pose proof (Uint63.to_Z_bounded i) as Hi.
  destruct (Z.eq_dec z (Uint63.to_Z i)) as [->|Hne]; [now rewrite Uint63.of_to_Z|].
  apply (IH (i + 1)%uint63 H1); [|exact Hsmall].
  rewrite Uint63.add_spec, Uint63.to_Z_1, wB_value, Z.mod_small; lia.
Qed.

Lemma add_exact_check :
  int_forall 3826 0%uint63
    (fun a =>
       int_forall 256 0%uint63
         (fun b =>
            PrimFloat.Leibniz.eqb (of_uint63 a + of_uint63 b)%float (of_uint63 (a + b))))
  = true.
Proof. vm_compute. reflexivity. Qed.

(** Adding one sample to a partial block sum is exact. *)
Lemma add_sample_exact (a b : Z) :
  (0 <= a <= 3825)%Z -> (0 <= b <= 255)%Z ->
  (JS.of_Z a + JS.of_Z b)%float = JS.of_Z (a + b).
Proof.
  intros Ha Hb. unfold JS.of_Z. rewrite <- of_Z_add.
  apply FloatAxioms.Leibniz.eqb_spec.
  assert (Uint63.to_Z 0 <= a < Uint63.to_Z 0 + Z.of_nat 3826)%Z as Ra
      by (rewrite Uint63.to_Z_0; lia).
  assert (Uint63.to_Z 0 <= b < Uint63.to_Z 0 + Z.of_nat 256)%Z as Rb
      by (rewrite Uint63.to_Z_0; lia).
  pose proof (int_forall_sound _ _ _ a add_exact_check Ra ltac:(lia)) as H.
  exact (int_forall_sound _ _ _ b H Rb ltac:(lia)).
Qed.

Lemma block_threshold_check :
  int_forall 4081 0%uint63
    (fun s =>
       Bool.eqb (JS.gt (of_uint63 s / of_uint63 16)%float 128%float) (2048 <? s)%uint63)
  = true.
Proof. vm_compute. reflexivity. Qed.

(** The mean of sixteen samples exceeds 128 exactly when they sum to more
    than 2048. *)
Lemma block_threshold (s : Z) :
  (0 <= s <= 4080)%Z ->
  JS.gt (JS.of_Z s / JS.of_nat 16)%float 128%float = (2048 <? s)%Z.
Proof.
  intros Hs.
  assert (Uint63.to_Z 0 <= s < Uint63.to_Z 0 + Z.of_nat 4081)%Z as Rs
      by (rewrite Uint63.to_Z_0; lia).
  pose proof (int_forall_sound _ _ _ s block_threshold_check Rs ltac:(lia)) as H.
  cbv beta in H. apply eqb_prop in H.
  change (JS.of_nat 16) with (of_uint63 16). unfold JS.of_Z. rewrite H.
  change 2048%uint63 with (Uint63.of_Z 2048). apply ltb_of_Z; lia.
Qed.

(** ** The block algorithm *)

Definition block_indices (size by_ bx : nat) : list nat :=
  flat_map (fun y => map (fun x => (by_ * 4 + y) * (size * 4) + (bx * 4 + x)) (seq 0 4))
    (seq 0 4).

Lemma fold_left_rows {S A B C : Type} (f : S -> C -> S) (g : A -> B -> C)
    (xs : list B) (ys : list A) (a : S) :
  fold_left (fun acc y => fold_left (fun acc x => f acc (g y x)) xs acc) ys a
  = fold_left f (flat_map (fun y => map (g y) xs) ys) a.
Proof.
  revert a. induction ys as [|y ys IH]; intros a; simpl; [reflexivity|].
  rewrite fold_left_app, IH. f_equal.
  clear. revert a. induction xs as [|x xs IH]; intros a; simpl; [reflexivity|apply IH].
Qed.

Lemma block_sum_indices (pixels : Uint8Array) (size by_ bx : nat) :
  block_sum pixels size by_ bx
  = fold_left (fun sum i => (sum + px pixels i)%float) (block_indices size by_ bx) 0%float.
Proof.
  unfold block_sum, block_indices.
  apply (fold_left_rows (fun sum i => (sum + px pixels i)%float)
           (fun y x => (by_ * 4 + y) * (size * 4) + (bx * 4 + x))).
Qed.

Lemma block_total_indices (pixels : Uint8Array) (size by_ bx : nat) :
  block_total pixels size by_ bx
  = fold_left
      (fun total i =>
         match nth_error pixels i with
         | Some b => (total + Z.of_N (Byte.to_N b))%Z
         | None => total
         end)
      (block_indices size by_ bx) 0%Z.
Proof.
  unfold block_total, block_indices.
  apply (fold_left_rows
           (fun total i =>
              match nth_error pixels i with
              | Some b => (total + Z.of_N (Byte.to_N b))%Z
              | None => total
              end)
           (fun y x => (by_ * 4 + y) * (size * 4) + (bx * 4 + x))).
Qed.

Lemma block_indices_in_range (size by_ bx i : nat) :
  by_ < size -> bx < size -> In i (block_indices size by_ bx) -> i < 16 * size * size.
Proof.
  intros Hy Hx Hi. unfold block_indices in Hi.
  apply in_flat_map in Hi. destruct Hi as [y [Hy' Hi]].
  apply in_map_iff in Hi. destruct Hi as [x [<- Hx']].
  apply in_seq in Hy', Hx'. nia.
Qed.

(** Summing at most sixteen samples in floating point is exact. *)
Lemma sum_samples_exact (pixels : Uint8Array) (indices : list nat) (a : Z) :
  (forall i, In i indices -> i < List.length pixels) ->
  (0 <= a)%Z -> (a + 255 * Z.of_nat (List.length indices) <= 4080)%Z ->
  exists total,
    fold_left
      (fun total i =>
         match nth_error pixels i with
         | Some b => (total + Z.of_N (Byte.to_N b))%Z
         | None => total
         end) indices a = total
    /\ fold_left (fun sum i => (sum + px pixels i)%float) indices (JS.of_Z a) = JS.of_Z total
    /\ (a <= total <= a + 255 * Z.of_nat (List.length indices))%Z.
Proof.
  revert a. induction indices as [|i indices IH]; intros a Hin Ha Hb.
  - exists a. simpl. repeat split; lia.
  - assert (i < List.length pixels) as Hi by (apply Hin; now left).
    destruct (nth_error pixels i) as [b|] eqn:E;
      [|apply nth_error_None in E; lia].
    pose proof (Byte.to_N_bounded b) as Hbyte.
    simpl List.length in Hb.
    destruct (IH (a + Z.of_N (Byte.to_N b))%Z) as [total (H0 & H1 & H2)];
      [intros j Hj; apply Hin; now right|lia|lia|].
    exists total. cbn [fold_left List.length]. rewrite E.
    split; [exact H0|]. split; [|lia].
    unfold px at 2. rewrite E. unfold sample.
    rewrite add_sample_exact by lia. exact H1.
Qed.

Lemma block_sum_exact (pixels : Uint8Array) (size by_ bx : nat) :
  by_ < size -> bx < size -> 16 * size * size <= List.length pixels ->
  block_sum pixels size by_ bx = JS.of_Z (block_total pixels size by_ bx)
  /\ (0 <= block_total pixels size by_ bx <= 4080)%Z.
Proof.
  intros Hy Hx Hlen. rewrite block_sum_indices, block_total_indices.
  destruct (sum_samples_exact pixels (block_indices size by_ bx) 0) as [total (H0 & H1 & H2)].
  - intros i Hi. pose proof (block_indices_in_range size by_ bx i Hy Hx Hi). lia.
  - lia.
  - unfold block_indices. rewrite flat_map_rows_length, length_seq. lia.
  - rewrite H0. split; [exact H1|].
    unfold block_indices in H2. rewrite flat_map_rows_length, length_seq in H2. lia.
Qed.

(** C5 (as the code has it).  The block algorithm thresholds each 4x4-block
    mean against the constant 128, not against the mean of the block means:
    the hash has [size * size] bits, one per block in row order, and the
    bit of a block is 1 exactly when its mean is strictly greater than 128,
    that is, over a buffer that holds the whole [4 size x 4 size] grid,
    when its sixteen samples sum to more than 2048. *)
Theorem blockHash_thresholds_against_128 (pixels : Uint8Array) (size : nat) :
  blockHash_pixels pixels size
  = hash_of_bits (map (fun blockAvg => JS.gt blockAvg 128%float) (block_means pixels size))
  /\ String.length (blockHash_pixels pixels size) = size * size
  /\ (forall by_ bx,
         by_ < size -> bx < size -> 16 * size * size <= List.length pixels ->
         String.get (by_ * size + bx) (blockHash_pixels pixels size)
         = Some (if (2048 <? block_total pixels size by_ bx)%Z then "1" else "0")%char).
Proof.
  split; [apply blockHash_pixels_bits|]. split; [apply blockHash_pixels_length|].
  intros by_ bx Hy Hx Hlen.
  rewrite blockHash_pixels_bits, hash_of_bits_get. unfold block_means.
  rewrite map_flat_map_rows.
  rewrite (flat_map_rows_nth
             (fun by_ bx => JS.gt (block_sum pixels size by_ bx / JS.of_nat 16)%float 128%float))
    by assumption.
  simpl option_map.
  destruct (block_sum_exact pixels size by_ bx Hy Hx Hlen) as [-> Hb].
  now rewrite block_threshold.
Qed.

Lemma blockHash_thresholds_against_128_witness :
  String.get 0 (blockHash_pixels (repeat (u8 200) 16) 1) = Some "1"%char.
Proof.
  exact (proj2 (proj2 (blockHash_thresholds_against_128 (repeat (u8 200) 16) 1))
           0 0 (le_n 1) (le_n 1) (le_n 16)).
Defined.

(** C5 (as the specification words it) fails: on one block of sixteen
    samples equal to 200 the only coefficient is 200, its mean is 200 and
    no coefficient is strictly greater, so the mean policy emits "0"; the
    code emits "1". *)
Lemma blockHash_not_against_mean :
  block_means (repeat (u8 200) 16) 1 = [200%float]
  /\ encode_against_mean (block_means (repeat (u8 200) 16) 1) = "0"%string
  /\ blockHash_pixels (repeat (u8 200) 16) 1 = "1"%string
  /\ blockHash_pixels (repeat (u8 200) 16) 1
     <> encode_against_mean (block_means (repeat (u8 200) 16) 1).
Proof.
  split; [vm_compute; reflexivity|]. split; [vm_compute; reflexivity|].
  split; [vm_compute; reflexivity|]. vm_compute. discriminate.
Qed.

(** ** [generateHash]: the dispatch *)

Lemma not_known_algorithm (algorithm : string) :
  ~ In algorithm known_algorithms ->
  String.eqb algorithm "average" = false /\ String.eqb algorithm "dhash" = false
  /\ String.eqb algorithm "phash" = false /\ String.eqb algorithm "perceptual" = false
  /\ String.eqb algorithm "wavelet" = false /\ String.eqb algorithm "blockhash" = false
  /\ String.eqb algorithm "structural" = false
  /\ String.eqb algorithm "colorhistogram" = false
  /\ String.eqb algorithm "gradient" = false.
Proof.
  intros H. unfold known_algorithms in H. simpl in H.
  repeat split; apply String.eqb_neq; intros ->; apply H; tauto.
Qed.

Lemma dispatch_unknown (env : Env.t) (imageBuffer : Buffer) (algorithm : string) (size : nat) :
  ~ In algorithm known_algorithms ->
  dispatch env imageBuffer algorithm size = Err (UnknownHashingAlgorithm algorithm).
Proof.
  intros H. apply not_known_algorithm in H.
  destruct H as (H1 & H2 & H3 & H4 & H5 & H6 & H7 & H8 & H9).
  unfold dispatch. now rewrite H1, H2, H3, H4, H5, H6, H7, H8, H9.
Qed.

Lemma generateHash_unknown (env : Env.t) (imageBuffer : Buffer) (algorithm : string)
    (size : nat) :
  ~ In algorithm known_algorithms ->
  generateHash env imageBuffer algorithm size
  = Err (HashGenerationFailed algorithm (UnknownHashingAlgorithm algorithm)).
Proof. intros H. unfold generateHash. now rewrite dispatch_unknown. Qed.

(** What [dispatch] ran, read off its result. *)
Inductive dispatched (env : Env.t) (imageBuffer : Buffer) (size : nat)
  : string -> result (string * number * list (string * MetaValue)) -> Prop :=
  | d_average :
      dispatched env imageBuffer size "average"
        (resized <- Env.sharp_resize_raw env imageBuffer size size true ;;
         Ok (averageHash_pixels resized, 1.0%float, []))%result
  | d_dhash :
      dispatched env imageBuffer size "dhash"
        (resized <- Env.sharp_resize_raw env imageBuffer (size + 1) (size + 1) true ;;
         Ok (differenceHash_pixels resized size, 1.0%float, []))%result
  | d_phash :
      dispatched env imageBuffer size "phash"
        (resized <- Env.sharp_resize_raw env imageBuffer size size true ;;
         Ok (perceptualHash_pixels (Env.Math_cos env) (Env.Array_sort env) resized size,
             1.0%float, []))%result
  | d_perceptual :
      dispatched env imageBuffer size "perceptual"
        (resized <- Env.sharp_resize_raw env imageBuffer size size true ;;
         blurred <- Env.sharp_blur_raw env resized size ;;
         Ok (advancedPerceptualHash_pixels (Env.Math_cos env) blurred size,
             0.95%float, []))%result
  | d_wavelet :
      dispatched env imageBuffer size "wavelet"
        (resized <- Env.sharp_resize_raw env imageBuffer size size true ;;
         Ok (waveletHash_pixels (Env.Array_sort env) resized size, 0.92%float, []))%result
  | d_blockhash :
      dispatched env imageBuffer size "blockhash"
        (resized <- Env.sharp_resize_raw env imageBuffer (size * 4) (size * 4) true ;;
         Ok (blockHash_pixels resized size, 0.90%float, []))%result
  | d_structural :
      dispatched env imageBuffer size "structural"
        (resized <- Env.sharp_resize_raw env imageBuffer size size true ;;
         Ok (structuralHash_pixels (Env.Array_sort env) resized size, 0.88%float,
             [("structuralFeatures"%string, MetaBool true)]))%result
  | d_colorhistogram :
      dispatched env imageBuffer size "colorhistogram"
        (resized <- Env.sharp_resize_raw env imageBuffer size size false ;;
         Ok (colorHistogramHash_pixels resized, 0.85%float,
             [("colorAnalysis"%string, MetaBool true)]))%result
  | d_gradient :
      dispatched env imageBuffer size "gradient"
        (resized <- Env.sharp_resize_raw env imageBuffer size size true ;;
         Ok (gradientHash_pixels (Env.Array_sort env) resized size, 0.87%float,
             [("gradientAnalysis"%string, MetaBool true)]))%result
  | d_unknown (algorithm : string) :
      ~ In algorithm known_algorithms ->
      dispatched env imageBuffer size algorithm (Err (UnknownHashingAlgorithm algorithm)).

Lemma dispatch_cases (env : Env.t) (imageBuffer : Buffer) (algorithm : string) (size : nat) :
  dispatched env imageBuffer size algorithm (dispatch env imageBuffer algorithm size).
Proof.
  destruct (in_dec string_dec algorithm known_algorithms) as [Hin|Hout].
  - unfold known_algorithms in Hin. simpl in Hin.
    repeat (destruct Hin as [<-|Hin]; [unfold dispatch; simpl; unfold averageHash,
      differenceHash, perceptualHash, advancedPerceptualHash, waveletHash, blockHash,
      structuralHash, colorHistogramHash, gradientHash, bind;
      match goal with
      | |- dispatched _ _ _ _ ?t =>
          first [ refine (eq_ind _ (dispatched _ _ _ _) (d_average _ _ _) t _)
                | refine (eq_ind _ (dispatched _ _ _ _) (d_dhash _ _ _) t _)
                | refine (eq_ind _ (dispatched _ _ _ _) (d_phash _ _ _) t _)
                | refine (eq_ind _ (dispatched _ _ _ _) (d_perceptual _ _ _) t _)
                | refine (eq_ind _ (dispatched _ _ _ _) (d_wavelet _ _ _) t _)
                | refine (eq_ind _ (dispatched _ _ _ _) (d_blockhash _ _ _) t _)
                | refine (eq_ind _ (dispatched _ _ _ _) (d_structural _ _ _) t _)
                | refine (eq_ind _ (dispatched _ _ _ _) (d_colorhistogram _ _ _) t _)
                | refine (eq_ind _ (dispatched _ _ _ _) (d_gradient _ _ _) t _) ]
      end;
      unfold bind;
      repeat match goal with
             | |- context [match ?x with Ok _ => _ | Err _ => _ end] => destruct x
             end; reflexivity |]).
    contradiction.
  - rewrite (dispatch_unknown _ _ _ _ Hout). now constructor.
Qed.

Lemma generateHash_Ok_inv (env : Env.t) (imageBuffer : Buffer) (algorithm : string)
    (size : nat) (r : HashResult.t) :
  generateHash env imageBuffer algorithm size = Ok r ->
  exists hash confidence metadata,
    dispatch env imageBuffer algorithm size = Ok (hash, confidence, metadata)
    /\ r = HashResult.mk hash algorithm confidence
             (("size"%string, MetaNumber size) :: metadata).
Proof.
  unfold generateHash. destruct (dispatch env imageBuffer algorithm size) as [[[h c] m]|e];
    [|discriminate].
  intros [= <-]. now exists h, c, m.
Qed.

Lemma generateHash_Err_inv (env : Env.t) (imageBuffer : Buffer) (algorithm : string)
    (size : nat) (e : error) :
  generateHash env imageBuffer algorithm size = Err e ->
  exists cause,
    dispatch env imageBuffer algorithm size = Err cause
    /\ e = HashGenerationFailed algorithm cause.
Proof.
  unfold generateHash. destruct (dispatch env imageBuffer algorithm size) as [[[h c] m]|cause];
    [discriminate|].
  intros [= <-]. now exists cause.
Qed.

Ltac dispatch_inversion env imageBuffer algorithm size :=
  let D := fresh "D" in
  pose proof (dispatch_cases env imageBuffer algorithm size) as D;
  inversion D; subst;
  match goal with
  | E : _ = dispatch _ _ _ _, H : dispatch _ _ _ _ = _ |- _ => rewrite <- E in H; clear E
  end.

Lemma generateHash_length (env : Env.t) (imageBuffer : Buffer) (algorithm : string)
    (size : nat) (r : HashResult.t) :
  (algorithm = "average"%string ->
   forall pixels, Env.sharp_resize_raw env imageBuffer size size true = Ok pixels ->
                  List.length pixels = size * size) ->
  generateHash env imageBuffer algorithm size = Ok r ->
  String.length (HashResult.hash r) = hash_bits algorithm size.
Proof.
  intros Hc Hr. apply generateHash_Ok_inv in Hr.
  destruct Hr as (h & c & m & Hd & ->). simpl.
  dispatch_inversion env imageBuffer algorithm size;
    try discriminate;
    unfold bind in Hd;
    repeat match type of Hd with
           | match ?x with Ok _ => _ | Err _ => _ end = _ =>
               let E := fresh "E" in destruct x eqn:E; [|discriminate]
           end;
    injection Hd as <- _ _.
  - rewrite averageHash_pixels_length. now apply Hc.
  - apply differenceHash_pixels_length.
  - apply perceptualHash_pixels_length.
  - apply advancedPerceptualHash_pixels_length.
  - apply waveletHash_pixels_length.
  - apply blockHash_pixels_length.
  - apply structuralHash_pixels_length.
  - apply colorHistogramHash_pixels_length.
  - apply gradientHash_pixels_length.
Qed.

(** C9 (as the code has it).  When the pixel source answers a request for
    an [n x n] greyscale grid with [n * n] samples (the average algorithm
    emits one bit per sample it is given; no other algorithm depends on the
    buffer), the length of the hash [generateHash] returns is
    [hash_bits algorithm n]: two images hashed at one tier get hashes of one
    length.  The structural and gradient algorithms give [(n - 2)^2] bits
    for [n >= 2] and no bit for [n < 2]; colorhistogram gives 3 bits. *)
Theorem generateHash_hash_length (env : Env.t) (algorithm : string) (size : nat)
    (image1 image2 : Buffer) (r1 r2 : HashResult.t) :
  (algorithm = "average"%string ->
   forall imageBuffer pixels,
     Env.sharp_resize_raw env imageBuffer size size true = Ok pixels ->
     List.length pixels = size * size) ->
  generateHash env image1 algorithm size = Ok r1 ->
  generateHash env image2 algorithm size = Ok r2 ->
  String.length (HashResult.hash r1) = hash_bits algorithm size
  /\ String.length (HashResult.hash r2) = String.length (HashResult.hash r1)
  /\ (algorithm = "structural"%string \/ algorithm = "gradient"%string ->
      (2 <= size ->
       Z.of_nat (String.length (HashResult.hash r1))
       = ((Z.of_nat size - 2) * (Z.of_nat size - 2))%Z)
      /\ (size < 2 -> String.length (HashResult.hash r1) = 0))
  /\ (algorithm = "colorhistogram"%string -> String.length (HashResult.hash r1) = 3).
Proof.
  intros Hc H1 H2.
  assert (String.length (HashResult.hash r1) = hash_bits algorithm size) as L1.
  { apply (generateHash_length env image1); [intros E px; apply Hc, E|exact H1]. }
  assert (String.length (HashResult.hash r2) = hash_bits algorithm size) as L2.
  { apply (generateHash_length env image2); [intros E px; apply Hc, E|exact H2]. }
  split; [exact L1|]. split; [congruence|]. split.
  - assert (hash_bits algorithm size = (size - 2) * (size - 2)
            -> (2 <= size ->
                Z.of_nat (String.length (HashResult.hash r1))
                = ((Z.of_nat size - 2) * (Z.of_nat size - 2))%Z)
               /\ (size < 2 -> String.length (HashResult.hash r1) = 0)) as H.
    { intros E. rewrite L1, E. split; intros Hs.
      - rewrite Nat2Z.inj_mul, Nat2Z.inj_sub by lia. reflexivity.
      - replace (size - 2) with 0 by lia. reflexivity. }
    intros [-> | ->]; apply H; reflexivity.
  - intros ->. now rewrite L1.
Qed.

Lemma generateHash_hash_length_witness :
  exists r1 r2,
    generateHash raw_env (map u8 [1; 2; 3; 4; 50; 6; 7; 8; 9])
      "structural" 3 = Ok r1
    /\ generateHash raw_env (map u8 [9; 8; 7; 6; 5; 4; 3; 2; 1])
         "structural" 3 = Ok r2
    /\ String.length (HashResult.hash r1) = 1
    /\ String.length (HashResult.hash r2) = String.length (HashResult.hash r1).
Proof.
  eexists. eexists. split; [vm_compute; reflexivity|]. split; [vm_compute; reflexivity|].
  destruct (generateHash_hash_length raw_env "structural" 3
              (map u8 [1; 2; 3; 4; 50; 6; 7; 8; 9]) (map u8 [9; 8; 7; 6; 5; 4; 3; 2; 1])
              _ _ ltac:(discriminate) eq_refl eq_refl) as (L1 & L2 & _).
  split; [exact L1|exact L2].
Defined.

(** C9 (as the specification words it) fails at [n = 1]: the structural
    algorithm on a 1x1 grid returns the empty hash, not [(1 - 2)^2 = 1]
    bit. *)
Lemma structural_hash_size_1_is_empty :
  exists r,
    generateHash raw_env [u8 7] "structural" 1 = Ok r
    /\ HashResult.hash r = ""%string
    /\ Z.of_nat (String.length (HashResult.hash r)) <> ((1 - 2) * (1 - 2))%Z.
Proof.
  eexists. split; [vm_compute; reflexivity|]. split; [reflexivity|]. simpl. lia.
Qed.

(** C10. The structural and the gradient algorithm compute the same hash
    from the same samples; the results of [generateHash] carry that one
    hash, the confidence 0.88 against 0.87, the name asked for, and the
    annotation [structuralFeatures] against [gradientAnalysis]; when one
    fails the other fails with the same cause.  This holds whatever order
    the engine's sort gives the gradients. *)
Theorem structural_gradient_same_hash (env : Env.t) (imageBuffer : Buffer) (size : nat) :
  (forall Array_sort pixels,
      structuralHash_pixels Array_sort pixels size
      = gradientHash_pixels Array_sort pixels size)
  /\ match generateHash env imageBuffer "structural" size,
           generateHash env imageBuffer "gradient" size with
     | Ok s, Ok g =>
         HashResult.hash s = HashResult.hash g
         /\ HashResult.confidence s = 0.88%float
         /\ HashResult.confidence g = 0.87%float
         /\ HashResult.algorithm s = "structural"%string
         /\ HashResult.algorithm g = "gradient"%string
         /\ HashResult.metadata s
            = [("size", MetaNumber size); ("structuralFeatures", MetaBool true)]%string
         /\ HashResult.metadata g
            = [("size", MetaNumber size); ("gradientAnalysis", MetaBool true)]%string
     | Err es, Err eg =>
         exists cause,
           es = HashGenerationFailed "structural" cause
           /\ eg = HashGenerationFailed "gradient" cause
     | _, _ => False
     end.
Proof.
  split; [reflexivity|].
  unfold generateHash, dispatch. simpl.
  unfold structuralHash, gradientHash, bind.
  destruct (Env.sharp_resize_raw env imageBuffer size size true) as [resized|e].
  - repeat split; reflexivity.
  - now exists e.
Qed.

(** ** Buffers that are too short *)

Lemma px_past_end (pixels : Uint8Array) (i : nat) :
  List.length pixels <= i -> px pixels i = nan.
Proof.
  intros H. unfold px. now rewrite (proj2 (nth_error_None pixels i) H).
Qed.

Lemma differenceHash_pixels_get (pixels : Uint8Array) (size y x : nat) :
  y < size -> x < size ->
  String.get (y * size + x) (differenceHash_pixels pixels size)
  = Some (if JS.gt (px pixels (y * (size + 1) + x)) (px pixels (y * (size + 1) + x + 1))
          then "1" else "0")%char.
Proof.
  intros Hy Hx. rewrite differenceHash_pixels_bits, hash_of_bits_get.
  now rewrite (flat_map_rows_nth
                 (fun y x => JS.gt (px pixels (y * (size + 1) + x))
                               (px pixels (y * (size + 1) + x + 1)))).
Qed.

(** The only failures of [generateHash]: an unknown name, the error of the
    algorithm's resize, or the error of the blur of the perceptual hash. *)
Lemma generateHash_failures (env : Env.t) (imageBuffer : Buffer) (algorithm : string)
    (size : nat) (e : error) :
  generateHash env imageBuffer algorithm size = Err e ->
  (e = HashGenerationFailed algorithm (UnknownHashingAlgorithm algorithm)
   /\ ~ In algorithm known_algorithms)
  \/ (exists cause,
         e = HashGenerationFailed algorithm cause
         /\ In algorithm known_algorithms
         /\ requested_pixels env imageBuffer algorithm size = Err cause)
  \/ (exists cause resized,
         e = HashGenerationFailed algorithm cause
         /\ algorithm = "perceptual"%string
         /\ requested_pixels env imageBuffer algorithm size = Ok resized
         /\ Env.sharp_blur_raw env resized size = Err cause).
Proof.
  intros He. apply generateHash_Err_inv in He. destruct He as (cause & Hd & ->).
  dispatch_inversion env imageBuffer algorithm size;
    unfold bind in Hd;
    try (match type of Hd with
         | match ?x with Ok _ => _ | Err _ => _ end = _ =>
             let E := fresh "E" in destruct x eqn:E
         end;
         [|injection Hd as <-; right; left; exists e;
           split; [reflexivity|split; [simpl; tauto|exact E]]]);
    try discriminate.
  - destruct (Env.sharp_blur_raw env a size) eqn:E'; [discriminate|].
    injection Hd as <-. right; right. exists e, a. auto.
  - injection Hd as <-. left. auto.
Qed.

(** Once [sharp] has answered the resize of a known algorithm (and the blur
    of the perceptual hash), [generateHash] returns: a hash of the usual
    length, or one bit per sample received for the average hash. *)
Lemma generateHash_returns (env : Env.t) (imageBuffer : Buffer) (algorithm : string)
    (size : nat) (pixels : Uint8Array) :
  In algorithm known_algorithms ->
  requested_pixels env imageBuffer algorithm size = Ok pixels ->
  (algorithm = "perceptual"%string ->
   exists blurred, Env.sharp_blur_raw env pixels size = Ok blurred) ->
  exists r,
    generateHash env imageBuffer algorithm size = Ok r
    /\ String.length (HashResult.hash r)
       = if String.eqb algorithm "average" then List.length pixels
         else hash_bits algorithm size.
Proof.
  intros Hin Hp Hb.
  destruct (generateHash env imageBuffer algorithm size) as [r|e] eqn:E.
  - exists r. split; [reflexivity|].
    destruct (String.eqb algorithm "average") eqn:Ea.
    + apply String.eqb_eq in Ea. subst algorithm.
      change (Env.sharp_resize_raw env imageBuffer size size true = Ok pixels) in Hp.
      revert E. unfold generateHash, dispatch. simpl. unfold averageHash, bind.
      rewrite Hp. intros [= <-]. apply averageHash_pixels_length.
    + apply (generateHash_length env imageBuffer algorithm size r); [|exact E].
      intros ->. discriminate.
  - exfalso. apply generateHash_failures in E.
    destruct E as [[_ Hout]|[(cause & _ & _ & Hs)|(cause & resized & _ & Ha & Hs & Hblur)]].
    + contradiction.
    + congruence.
    + rewrite Hp in Hs. injection Hs as <-.
      destruct (Hb Ha) as [blurred Hok]. congruence.
Qed.

(** C8 (as the code has it).  No algorithm checks the buffer [sharp] hands
    it.  [generateHash] fails only on an unknown name, on the error [sharp]
    raised for the resize the algorithm asked for, or on the error of the
    blur of the perceptual hash.  Whenever [sharp] answers that one resize
    with a buffer, of whatever length (and, for the perceptual hash, the
    blur of that buffer with a buffer), the algorithm returns a hash, of
    its usual length, or of one bit per sample received for the average
    hash; this holds whatever order the engine's sort gives the values.  A
    sample read past the end of the buffer is [undefined]: in the
    difference hash every bit whose right neighbour is missing is 0, and
    the average hash of the empty buffer is the empty string. *)
Theorem generateHash_never_rejects_buffer (env : Env.t) (imageBuffer : Buffer)
    (algorithm : string) (size : nat) :
  (forall e,
      generateHash env imageBuffer algorithm size = Err e ->
      (e = HashGenerationFailed algorithm (UnknownHashingAlgorithm algorithm)
       /\ ~ In algorithm known_algorithms)
      \/ (exists cause,
             e = HashGenerationFailed algorithm cause
             /\ In algorithm known_algorithms
             /\ requested_pixels env imageBuffer algorithm size = Err cause)
      \/ (exists cause resized,
             e = HashGenerationFailed algorithm cause
             /\ algorithm = "perceptual"%string
             /\ requested_pixels env imageBuffer algorithm size = Ok resized
             /\ Env.sharp_blur_raw env resized size = Err cause))
  /\ (forall pixels,
         In algorithm known_algorithms ->
         requested_pixels env imageBuffer algorithm size = Ok pixels ->
         (algorithm = "perceptual"%string ->
          exists blurred, Env.sharp_blur_raw env pixels size = Ok blurred) ->
         exists r,
           generateHash env imageBuffer algorithm size = Ok r
           /\ String.length (HashResult.hash r)
              = if String.eqb algorithm "average" then List.length pixels
                else hash_bits algorithm size)
  /\ (forall pixels y x,
         y < size -> x < size -> List.length pixels <= y * (size + 1) + x + 1 ->
         String.get (y * size + x) (differenceHash_pixels pixels size) = Some "0"%char)
  /\ averageHash_pixels [] = ""%string.
Proof.
  split; [intros e; apply generateHash_failures|].
  split; [intros pixels; apply generateHash_returns|].
  split; [|reflexivity].
  intros pixels y x Hy Hx Hlen.
  rewrite differenceHash_pixels_get by assumption.
  rewrite (px_past_end pixels (y * (size + 1) + x + 1)) by exact Hlen.
  now rewrite gt_nan_r.
Qed.

Lemma generateHash_never_rejects_buffer_witness :
  exists r,
    generateHash one_sample_env [] "perceptual" 2 = Ok r
    /\ String.length (HashResult.hash r) = 4.
Proof.
  apply (proj1 (proj2 (generateHash_never_rejects_buffer one_sample_env [] "perceptual" 2))
           [u8 200]).
  - simpl. tauto.
  - reflexivity.
  - intros _. now exists [u8 200].
Defined.

(** C8 (as the specification words it) fails: handed the empty buffer where
    a 9x9 grid was asked for, the difference hash does not fail; it returns
    64 zero bits. *)
Lemma differenceHash_accepts_empty_buffer :
  generateHash (stub_env (fun _ => Ok [])) [] "dhash" 8
  = Ok (HashResult.mk
          "0000000000000000000000000000000000000000000000000000000000000000"
          "dhash" 1%float [("size", MetaNumber 8)])%string.
Proof. vm_compute. reflexivity. Qed.

(** ** Progressive comparison *)

Lemma progressiveCompare_blocks (env : Env.t) (this : VisualHasher.t)
    (image1 image2 : Buffer) (options : option MultiLevelHashOptions.t) :
  let opts := effective_options this options in
  progressiveCompare env this image1 image2 options
  = (returned <- tier_block env 1 (MultiLevelHashOptions.level1 opts) image1 image2 ;;
     match returned with
     | Some r => ret r
     | None =>
     returned <- tier_block env 2 (MultiLevelHashOptions.level2 opts) image1 image2 ;;
     match returned with
     | Some r => ret r
     | None =>
     returned <- tier_block env 3 (MultiLevelHashOptions.level3 opts) image1 image2 ;;
     match returned with
     | Some r => ret r
     | None =>
     match MultiLevelHashOptions.level4 opts with
     | Value level4 =>
         if Level4.enabled level4
         then ret (ProgressiveResult.mk 4 (placeholder "semantic") true)
         else ret (ProgressiveResult.mk 3 (placeholder "progressive") false)
     | _ => ret (ProgressiveResult.mk 3 (placeholder "progressive") false)
     end
     end end end)%traced.
Proof. reflexivity. Qed.

Lemma tier_block_run (env : Env.t) (n : nat) (l : Level.t) (image1 image2 : Buffer)
    (trace : list event) :
  tier_block env n (Value l) image1 image2 trace
  = match generateHash env image1 (Level.algorithm l) (Level.size l) with
    | Err e => (Err e, trace ++ [GenerateHash image1 (Level.algorithm l) (Level.size l)])
    | Ok hash1 =>
        match generateHash env image2 (Level.algorithm l) (Level.size l) with
        | Err e => (Err e, trace ++ tier_calls (Value l) image1 image2)
        | Ok hash2 =>
            match compareHashes (HashResult.hash hash1) (HashResult.hash hash2)
                    (Level.algorithm l) with
            | Err e => (Err e, trace ++ tier_calls (Value l) image1 image2)
            | Ok result =>
                (Ok (if JS.ge (HashComparison.similarity result) (Level.threshold l)
                     then Some (ProgressiveResult.mk n result false)
                     else None),
                 trace ++ tier_calls (Value l) image1 image2)
            end
        end
    end.
Proof.
  unfold tier_block, tbind, call_generateHash, lift, ret, tier_calls.
  destruct (generateHash env image1 _ _) as [hash1|e]; [|reflexivity].
  rewrite <- app_assoc. simpl.
  destruct (generateHash env image2 _ _) as [hash2|e]; [|reflexivity].
  destruct (compareHashes _ _ _) as [result|e]; [|reflexivity].
  now destruct (JS.ge _ _).
Qed.

Lemma tier_result_inv (env : Env.t) (l : Level.t) (image1 image2 : Buffer)
    (r : HashComparison.t) :
  tier_result env l image1 image2 = Ok r ->
  exists hash1 hash2,
    generateHash env image1 (Level.algorithm l) (Level.size l) = Ok hash1
    /\ generateHash env image2 (Level.algorithm l) (Level.size l) = Ok hash2
    /\ compareHashes (HashResult.hash hash1) (HashResult.hash hash2) (Level.algorithm l)
       = Ok r.
Proof.
  unfold tier_result, bind.
  destruct (generateHash env image1 _ _) as [hash1|e]; [|discriminate].
  destruct (generateHash env image2 _ _) as [hash2|e]; [|discriminate].
  intros H. now exists hash1, hash2.
Qed.

Lemma tier_block_passed (env : Env.t) (n : nat) (level : property Level.t)
    (image1 image2 : Buffer) (trace : list event) :
  tier_passed env level image1 image2 ->
  tier_block env n level image1 image2 trace
  = (Ok None, trace ++ tier_calls level image1 image2).
Proof.
  destruct level as [| |l]; simpl; intros H;
    try (unfold ret; now rewrite app_nil_r).
  destruct H as (r & Hr & Hge).
  apply tier_result_inv in Hr. destruct Hr as (hash1 & hash2 & H1 & H2 & H3).
  change (tier_block env n (Value l) image1 image2 trace
          = (Ok None, trace ++ tier_calls (Value l) image1 image2)).
  now rewrite tier_block_run, H1, H2, H3, Hge.
Qed.

Lemma tier_block_satisfied (env : Env.t) (n : nat) (l : Level.t)
    (image1 image2 : Buffer) (r : HashComparison.t) (trace : list event) :
  tier_result env l image1 image2 = Ok r ->
  JS.ge (HashComparison.similarity r) (Level.threshold l) = true ->
  tier_block env n (Value l) image1 image2 trace
  = (Ok (Some (ProgressiveResult.mk n r false)),
     trace ++ tier_calls (Value l) image1 image2).
Proof.
  intros Hr Hge.
  apply tier_result_inv in Hr. destruct Hr as (hash1 & hash2 & H1 & H2 & H3).
  now rewrite tier_block_run, H1, H2, H3, Hge.
Qed.

Lemma tier_block_unknown (env : Env.t) (n : nat) (l : Level.t)
    (image1 image2 : Buffer) (trace : list event) :
  ~ In (Level.algorithm l) known_algorithms ->
  tier_block env n (Value l) image1 image2 trace
  = (Err (HashGenerationFailed (Level.algorithm l)
            (UnknownHashingAlgorithm (Level.algorithm l))),
     trace ++ [GenerateHash image1 (Level.algorithm l) (Level.size l)]).
Proof.
  intros H. now rewrite tier_block_run, (generateHash_unknown _ _ _ _ H).
Qed.

Lemma tier_block_level (env : Env.t) (n : nat) (level : property Level.t)
    (image1 image2 : Buffer) (trace trace' : list event) (p : ProgressiveResult.t) :
  tier_block env n level image1 image2 trace = (Ok (Some p), trace') ->
  ProgressiveResult.level p = n /\ ProgressiveResult.shouldContinue p = false.
Proof.
  destruct level as [| |l]; try discriminate.
  rewrite tier_block_run.
  destruct (generateHash env image1 _ _) as [hash1|e]; [|discriminate].
  destruct (generateHash env image2 _ _) as [hash2|e]; [|discriminate].
  destruct (compareHashes _ _ _) as [result|e]; [|discriminate].
  destruct (JS.ge _ _); [|discriminate].
  intros [= <- _]. now split.
Qed.

Ltac run_blocks :=
  rewrite progressiveCompare_blocks; cbv zeta; unfold tbind at 1.

(** C1. [progressiveCompare] runs the configured tiers 1, 2, 3 in that
    order and returns at the first whose similarity is at least its
    threshold ([>=], so a similarity equal to the threshold stops the
    escalation), with that tier as level and [shouldContinue = false].  The
    calls of [generateHash] it has made are those of the tiers up to that
    one: nothing of a later tier is run. *)
Theorem progressiveCompare_returns_at_first_satisfied_tier (env : Env.t)
    (this : VisualHasher.t) (image1 image2 : Buffer)
    (options : option MultiLevelHashOptions.t) (trace : list event) :
  let opts := effective_options this options in
  let level1 := MultiLevelHashOptions.level1 opts in
  let level2 := MultiLevelHashOptions.level2 opts in
  let level3 := MultiLevelHashOptions.level3 opts in
  (forall l r,
      level1 = Value l ->
      tier_result env l image1 image2 = Ok r ->
      JS.ge (HashComparison.similarity r) (Level.threshold l) = true ->
      progressiveCompare env this image1 image2 options trace
      = (Ok (ProgressiveResult.mk 1 r false), trace ++ tier_calls level1 image1 image2))
  /\ (forall l r,
         tier_passed env level1 image1 image2 ->
         level2 = Value l ->
         tier_result env l image1 image2 = Ok r ->
         JS.ge (HashComparison.similarity r) (Level.threshold l) = true ->
         progressiveCompare env this image1 image2 options trace
         = (Ok (ProgressiveResult.mk 2 r false),
            trace ++ tier_calls level1 image1 image2 ++ tier_calls level2 image1 image2))
  /\ (forall l r,
         tier_passed env level1 image1 image2 ->
         tier_passed env level2 image1 image2 ->
         level3 = Value l ->
         tier_result env l image1 image2 = Ok r ->
         JS.ge (HashComparison.similarity r) (Level.threshold l) = true ->
         progressiveCompare env this image1 image2 options trace
         = (Ok (ProgressiveResult.mk 3 r false),
            trace ++ tier_calls level1 image1 image2 ++ tier_calls level2 image1 image2
                  ++ tier_calls level3 image1 image2))
  /\ (forall s, JS.strict_eq s s = true -> JS.ge s s = true).
Proof.
  intros opts level1 level2 level3. subst opts level1 level2 level3.
  split; [|split; [|split; [|exact ge_refl]]].
  - intros l r E Hr Hge. run_blocks. rewrite E.
    now rewrite (tier_block_satisfied _ _ _ _ _ _ _ Hr Hge).
  - intros l r P1 E Hr Hge. run_blocks.
    rewrite (tier_block_passed _ _ _ _ _ _ P1).
    unfold tbind at 1. rewrite E.
    rewrite (tier_block_satisfied _ _ _ _ _ _ _ Hr Hge).
    unfold ret. now rewrite <- app_assoc.
  - intros l r P1 P2 E Hr Hge. run_blocks.
    rewrite (tier_block_passed _ _ _ _ _ _ P1).
    unfold tbind at 1.
    rewrite (tier_block_passed _ _ _ _ _ _ P2).
    unfold tbind at 1. rewrite E.
    rewrite (tier_block_satisfied _ _ _ _ _ _ _ Hr Hge).
    unfold ret. now rewrite <- !app_assoc.
Qed.

Lemma progressiveCompare_returns_at_first_satisfied_tier_witness :
  progressiveCompare raw_env (new_VisualHasher None) sample_image_a sample_image_a None []
  = (Ok (ProgressiveResult.mk 1 (HashComparison.mk true 1%float "dhash" None) false),
     [GenerateHash sample_image_a "dhash" 8; GenerateHash sample_image_a "dhash" 8]).
Proof.
  apply (proj1 (progressiveCompare_returns_at_first_satisfied_tier raw_env
                  (new_VisualHasher None) sample_image_a sample_image_a None [])
           (Level.mk "dhash" 8 0.95%float)).
  - reflexivity.
  - vm_compute. reflexivity.
  - vm_compute. reflexivity.
Defined.

(** C6. When every configured tier 1-3 has compared its two hashes with a
    similarity below its threshold and tier 4 is enabled, the outcome is
    level 4 with [shouldContinue = true] and the placeholder result
    ([identical = false], [similarity = 0], severity [high]); the calls made
    are the hash generations of the configured tiers and nothing else. *)
Theorem progressiveCompare_hands_off_to_tier_4 (env : Env.t) (this : VisualHasher.t)
    (image1 image2 : Buffer) (options : option MultiLevelHashOptions.t)
    (trace : list event) (level4 : Level4.t) :
  let opts := effective_options this options in
  tier_passed env (MultiLevelHashOptions.level1 opts) image1 image2 ->
  tier_passed env (MultiLevelHashOptions.level2 opts) image1 image2 ->
  tier_passed env (MultiLevelHashOptions.level3 opts) image1 image2 ->
  MultiLevelHashOptions.level4 opts = Value level4 ->
  Level4.enabled level4 = true ->
  exists out,
    progressiveCompare env this image1 image2 options trace
    = (Ok out,
       trace ++ tier_calls (MultiLevelHashOptions.level1 opts) image1 image2
             ++ tier_calls (MultiLevelHashOptions.level2 opts) image1 image2
             ++ tier_calls (MultiLevelHashOptions.level3 opts) image1 image2)
    /\ ProgressiveResult.level out = 4
    /\ ProgressiveResult.shouldContinue out = true
    /\ HashComparison.identical (ProgressiveResult.result out) = false
    /\ HashComparison.similarity (ProgressiveResult.result out) = 0%float
    /\ HashComparison.algorithm (ProgressiveResult.result out) = "semantic"%string
    /\ HashComparison.differences (ProgressiveResult.result out)
       = Some (Differences.mk 0 [] high).
Proof.
  intros opts P1 P2 P3 E4 En. subst opts.
  exists (ProgressiveResult.mk 4 (placeholder "semantic") true).
  split; [|repeat split].
  run_blocks.
  rewrite (tier_block_passed _ _ _ _ _ _ P1). unfold tbind at 1.
  rewrite (tier_block_passed _ _ _ _ _ _ P2). unfold tbind at 1.
  rewrite (tier_block_passed _ _ _ _ _ _ P3).
  rewrite E4, En. unfold ret. now rewrite <- !app_assoc.
Qed.

Lemma progressiveCompare_hands_off_to_tier_4_witness :
  exists out,
    progressiveCompare raw_env (new_VisualHasher None) sample_image_a sample_image_b
      (Some (MultiLevelHashOptions.mk (Value (Level.mk "dhash" 2 0.95%float))
               Undefined Undefined Absent)) []
    = (Ok out,
       [GenerateHash sample_image_a "dhash" 2; GenerateHash sample_image_b "dhash" 2])
    /\ ProgressiveResult.level out = 4
    /\ ProgressiveResult.shouldContinue out = true.
Proof.
  destruct (progressiveCompare_hands_off_to_tier_4 raw_env (new_VisualHasher None)
              sample_image_a sample_image_b
              (Some (MultiLevelHashOptions.mk (Value (Level.mk "dhash" 2 0.95%float))
                       Undefined Undefined Absent)) []
              (Level4.mk true None 0.80%float))
    as (out & H & Hl & Hc & _).
  - eexists. split; vm_compute; reflexivity.
  - exact I.
  - exact I.
  - reflexivity.
  - reflexivity.
  - exists out. split; [exact H|]. split; [exact Hl|exact Hc].
Defined.

(** C7 (as the code has it).  [generateHash] fails on every name outside
    the nine it knows, whatever the image and the size, with the
    unknown-algorithm error; so it does on "bogus".  When the escalation
    reaches a tier that names an unknown algorithm (every configured tier
    before it compared below its threshold), [progressiveCompare] aborts
    with that error at the first hash of the tier: the tier is not skipped
    and no later tier is run.  In any case an escalation one of whose tiers
    names an unknown algorithm never returns a result of that tier or of a
    later one. *)
Theorem unknown_algorithm_aborts_escalation (env : Env.t) (this : VisualHasher.t)
    (image1 image2 : Buffer) (options : option MultiLevelHashOptions.t)
    (trace : list event) :
  let opts := effective_options this options in
  let level1 := MultiLevelHashOptions.level1 opts in
  let level2 := MultiLevelHashOptions.level2 opts in
  let level3 := MultiLevelHashOptions.level3 opts in
  let unknown l :=
    Err (HashGenerationFailed (Level.algorithm l)
           (UnknownHashingAlgorithm (Level.algorithm l))) in
  (forall algorithm size,
      ~ In algorithm known_algorithms ->
      generateHash env image1 algorithm size
      = Err (HashGenerationFailed algorithm (UnknownHashingAlgorithm algorithm)))
  /\ generateHash env image1 "bogus" 8
     = Err (HashGenerationFailed "bogus" (UnknownHashingAlgorithm "bogus"))
  /\ (forall l,
         level1 = Value l -> ~ In (Level.algorithm l) known_algorithms ->
         progressiveCompare env this image1 image2 options trace
         = (unknown l, trace ++ [GenerateHash image1 (Level.algorithm l) (Level.size l)]))
  /\ (forall l,
         tier_passed env level1 image1 image2 ->
         level2 = Value l -> ~ In (Level.algorithm l) known_algorithms ->
         progressiveCompare env this image1 image2 options trace
         = (unknown l,
            trace ++ tier_calls level1 image1 image2
                  ++ [GenerateHash image1 (Level.algorithm l) (Level.size l)]))
  /\ (forall l,
         tier_passed env level1 image1 image2 ->
         tier_passed env level2 image1 image2 ->
         level3 = Value l -> ~ In (Level.algorithm l) known_algorithms ->
         progressiveCompare env this image1 image2 options trace
         = (unknown l,
            trace ++ tier_calls level1 image1 image2 ++ tier_calls level2 image1 image2
                  ++ [GenerateHash image1 (Level.algorithm l) (Level.size l)]))
  /\ (forall n level l out trace',
         nth_error [level1; level2; level3] n = Some level ->
         level = Value l -> ~ In (Level.algorithm l) known_algorithms ->
         progressiveCompare env this image1 image2 options trace = (Ok out, trace') ->
         ProgressiveResult.level out < S n
         /\ ProgressiveResult.shouldContinue out = false).
Proof.
  intros opts level1 level2 level3 unknown.
  subst opts level1 level2 level3 unknown.
  split; [intros algorithm size; apply generateHash_unknown|].
  split; [apply generateHash_unknown; simpl; intuition discriminate|].
  split; [|split; [|split]].
  - intros l E H. run_blocks. rewrite E.
    now rewrite (tier_block_unknown _ _ _ _ _ _ H).
  - intros l P1 E H. run_blocks.
    rewrite (tier_block_passed _ _ _ _ _ _ P1). unfold tbind at 1. rewrite E.
    rewrite (tier_block_unknown _ _ _ _ _ _ H). now rewrite <- app_assoc.
  - intros l P1 P2 E H. run_blocks.
    rewrite (tier_block_passed _ _ _ _ _ _ P1). unfold tbind at 1.
    rewrite (tier_block_passed _ _ _ _ _ _ P2). unfold tbind at 1. rewrite E.
    rewrite (tier_block_unknown _ _ _ _ _ _ H). now rewrite <- !app_assoc.
  - intros n level l out trace' Hn E H.
    destruct n as [|[|[|n]]]; simpl in Hn; [| | |destruct n; discriminate];
      injection Hn as Hn; rewrite E in Hn; run_blocks.
    + rewrite Hn, (tier_block_unknown _ _ _ _ _ _ H). discriminate.
    + destruct (tier_block env 1 _ image1 image2 trace) as [[[p|]|e] t1] eqn:B1;
        [| |discriminate].
      * apply tier_block_level in B1. destruct B1 as [B1 B1'].
        unfold ret. intros [= <- _]. split; [lia|exact B1'].
      * unfold tbind at 1. rewrite Hn, (tier_block_unknown _ _ _ _ _ _ H). discriminate.
    + destruct (tier_block env 1 _ image1 image2 trace) as [[[p|]|e] t1] eqn:B1;
        [| |discriminate].
      * apply tier_block_level in B1. destruct B1 as [B1 B1'].
        unfold ret. intros [= <- _]. split; [lia|exact B1'].
      * unfold tbind at 1.
        destruct (tier_block env 2 _ image1 image2 t1) as [[[p|]|e] t2] eqn:B2;
          [| |discriminate].
        -- apply tier_block_level in B2. destruct B2 as [B2 B2'].
           unfold ret. intros [= <- _]. split; [lia|exact B2'].
        -- unfold tbind at 1. rewrite Hn, (tier_block_unknown _ _ _ _ _ _ H).
           discriminate.
Qed.

Lemma unknown_algorithm_aborts_escalation_witness :
  progressiveCompare raw_env (new_VisualHasher None) sample_image_a sample_image_b
    (Some (MultiLevelHashOptions.mk (Value (Level.mk "dhash" 2 0.95%float))
             (Value (Level.mk "bogus" 16 0.90%float)) Absent Absent)) []
  = (Err (HashGenerationFailed "bogus" (UnknownHashingAlgorithm "bogus")),
     [GenerateHash sample_image_a "dhash" 2; GenerateHash sample_image_b "dhash" 2;
      GenerateHash sample_image_a "bogus" 16]).
Proof.
  apply (proj1 (proj2 (proj2 (proj2 (unknown_algorithm_aborts_escalation raw_env
                  (new_VisualHasher None) sample_image_a sample_image_b
                  (Some (MultiLevelHashOptions.mk (Value (Level.mk "dhash" 2 0.95%float))
                           (Value (Level.mk "bogus" 16 0.90%float)) Absent Absent)) []))))
           (Level.mk "bogus" 16 0.90%float)).
  - eexists. split; vm_compute; reflexivity.
  - reflexivity.
  - simpl. intuition discriminate.
Defined.

(** C7 (as the specification words it) fails: a tier that names an unknown
    algorithm does not abort an escalation that stops before it.  With tier
    1 satisfied on two identical images, tier 2 naming "bogus" is never
    dispatched and the call returns level 1. *)
Lemma unknown_algorithm_behind_satisfied_tier :
  progressiveCompare raw_env (new_VisualHasher None) sample_image_a sample_image_a
    (Some (MultiLevelHashOptions.mk (Value (Level.mk "dhash" 8 0.95%float))
             (Value (Level.mk "bogus" 16 0.90%float)) Absent Absent)) []
  = (Ok (ProgressiveResult.mk 1 (HashComparison.mk true 1%float "dhash" None) false),
     [GenerateHash sample_image_a "dhash" 8; GenerateHash sample_image_a "dhash" 8]).
Proof. vm_compute. reflexivity. Qed.

(* ===================================================================== *)
(** * Further properties of the module *)
(* ===================================================================== *)

(** ** Hamming distance *)

Lemma option_ascii_eqb_sym (a b : option ascii) :
  option_ascii_eqb a b = option_ascii_eqb b a.
Proof.
  destruct a as [x|], b as [y|]; simpl; try reflexivity. apply Ascii.eqb_sym.
Qed.

Lemma char_differs_sym (hash1 hash2 : string) (i : nat) :
  char_differs hash1 hash2 i = char_differs hash2 hash1 i.
Proof. unfold char_differs. now rewrite option_ascii_eqb_sym. Qed.

Lemma mismatches_sym (hash1 hash2 : string) :
  String.length hash1 = String.length hash2 ->
  mismatches hash1 hash2 = mismatches hash2 hash1.
Proof.
  intros H. unfold mismatches. rewrite H.
  apply filter_ext. intros i. apply char_differs_sym.
Qed.

Lemma string_ext (a b : string) :
  String.length a = String.length b ->
  (forall i, i < String.length a -> String.get i a = String.get i b) ->
  a = b.
Proof.
  revert b. induction a as [|x a IH]; intros [|y b] Hlen Hget; simpl in Hlen;
    try discriminate; [reflexivity|].
  f_equal.
  - specialize (Hget 0 ltac:(simpl; lia)). simpl in Hget. congruence.
  - apply IH; [lia|]. intros i Hi. apply (Hget (S i)). simpl. lia.
Qed.

Lemma mismatches_nil_eq (hash1 hash2 : string) :
  String.length hash1 = String.length hash2 ->
  mismatches hash1 hash2 = [] -> hash1 = hash2.
Proof.
  intros Hlen H. apply string_ext; [exact Hlen|].
  intros i Hi.
  destruct (option_ascii_eqb (String.get i hash1) (String.get i hash2)) eqn:E.
  - now apply option_ascii_eqb_eq.
  - exfalso. assert (In i (mismatches hash1 hash2)) as Hin.
    { apply In_mismatches. split; [exact Hi|]. intros C.
      apply option_ascii_eqb_eq in C. congruence. }
    rewrite H in Hin. contradiction.
Qed.

Lemma filter_length_cover {A : Type} (p q r : A -> bool) (l : list A) :
  (forall x, p x = true -> q x = true \/ r x = true) ->
  List.length (filter p l) <= List.length (filter q l) + List.length (filter r l).
Proof.
  intros H. induction l as [|x l IH]; simpl; [lia|].
  destruct (p x) eqn:P.
  - destruct (H x P) as [Q|R].
    + rewrite Q. simpl. destruct (r x); simpl; lia.
    + rewrite R. simpl. destruct (q x); simpl; lia.
  - destruct (q x), (r x); simpl; lia.
Qed.

Lemma char_differs_triangle (a b c : string) (i : nat) :
  char_differs a c i = true ->
  char_differs a b i = true \/ char_differs b c i = true.
Proof.
  rewrite !char_differs_true. intros H.
  destruct (option_ascii_eqb (String.get i a) (String.get i b)) eqn:E.
  - apply option_ascii_eqb_eq in E. right. congruence.
  - left. intros C. apply option_ascii_eqb_eq in C. congruence.
Qed.

(** X1. On strings of one length [calculateHammingDistance] is a metric:
    it never fails, is symmetric, is zero exactly on equal strings, obeys
    the triangle inequality and is at most the length. *)
Theorem calculateHammingDistance_metric (a b c : string) :
  String.length a = String.length b ->
  String.length b = String.length c ->
  exists dab dba dbc dac,
    calculateHammingDistance a b = Ok dab
    /\ calculateHammingDistance b a = Ok dba
    /\ calculateHammingDistance b c = Ok dbc
    /\ calculateHammingDistance a c = Ok dac
    /\ dab = dba
    /\ (dab = 0 <-> a = b)
    /\ dac <= dab + dbc
    /\ dab <= String.length a.
Proof.
  intros Hab Hbc.
  exists (List.length (mismatches a b)), (List.length (mismatches b a)),
         (List.length (mismatches b c)), (List.length (mismatches a c)).
  rewrite !calculateHammingDistance_eq_length by congruence.
  repeat split.
  - now rewrite (mismatches_sym a b).
  - intros H. apply mismatches_nil_eq; [exact Hab|]. now apply length_zero_iff_nil.
  - intros ->. now rewrite mismatches_refl.
  - unfold mismatches. rewrite <- Hab.
    apply filter_length_cover. intros i. apply char_differs_triangle.
  - unfold mismatches. rewrite <- (length_seq (String.length a) 0) at 2.
    apply filter_length_le.
Qed.

Lemma calculateHammingDistance_metric_witness :
  exists dab dba dbc dac,
    calculateHammingDistance "1100" "1010" = Ok dab
    /\ calculateHammingDistance "1010" "1100" = Ok dba
    /\ calculateHammingDistance "1010" "0011" = Ok dbc
    /\ calculateHammingDistance "1100" "0011" = Ok dac
    /\ dab = dba /\ dac <= dab + dbc.
Proof.
  destruct (calculateHammingDistance_metric "1100" "1010" "0011" eq_refl eq_refl)
    as (dab & dba & dbc & dac & H1 & H2 & H3 & H4 & H5 & _ & H7 & _).
  exists dab, dba, dbc, dac. repeat split; assumption.
Defined.

(** X2. [compareHashes] does not depend on the order of the two hashes:
    the same result (similarity, count, positions, severity) or the same
    error either way. *)
Theorem compareHashes_symmetric (hash1 hash2 algorithm : string) :
  compareHashes hash1 hash2 algorithm = compareHashes hash2 hash1 algorithm.
Proof.
  destruct (String.eqb_spec hash1 hash2) as [->|Hneq]; [reflexivity|].
  destruct (Nat.eq_dec (String.length hash1) (String.length hash2)) as [Hlen|Hlen].
  - rewrite (compareHashes_unequal hash1 hash2) by assumption.
    rewrite (compareHashes_unequal hash2 hash1) by congruence.
    cbv zeta. now rewrite (mismatches_sym hash2 hash1), Hlen by congruence.
  - rewrite (compareHashes_unequal_length hash1 hash2 algorithm Hlen).
    symmetry. apply compareHashes_unequal_length. congruence.
Qed.

(** ** Severity in exact arithmetic *)

Definition severity_cond (d n : int) : bool :=
  let s := (1 - of_uint63 d / of_uint63 n)%float in
  negb (JS.strict_eq s 1%float)
  && Bool.eqb (JS.gt s 0.8%float) (5 * d <? n)%uint63
  && Bool.eqb (JS.gt s 0.6%float) (5 * d <? 2 * n)%uint63
  && JS.ge s 0%float
  && JS.gt 1%float s.

Lemma severity_check :
  int_forall 1024 1%uint63
    (fun n => int_forall 1024 1%uint63
                (fun d => if (d <=? n)%uint63 then severity_cond d n else true))
  = true.
Proof. vm_compute. reflexivity. Qed.

Lemma severity_exact (d n : nat) :
  1 <= d -> d <= n -> n <= 1024 ->
  let s := (1 - JS.of_nat d / JS.of_nat n)%float in
  JS.strict_eq s 1%float = false
  /\ JS.gt s 0.8%float = (5 * d <? n)
  /\ JS.gt s 0.6%float = (5 * d <? 2 * n)
  /\ JS.ge s 0%float = true
  /\ JS.gt 1%float s = true.
Proof.
  intros Hd Hdn Hn. cbv zeta.
  assert (Uint63.to_Z 1 <= Z.of_nat n < Uint63.to_Z 1 + Z.of_nat 1024)%Z as Rn
      by (rewrite Uint63.to_Z_1; lia).
  assert (Uint63.to_Z 1 <= Z.of_nat d < Uint63.to_Z 1 + Z.of_nat 1024)%Z as Rd
      by (rewrite Uint63.to_Z_1; lia).
  pose proof (int_forall_sound _ _ _ _ severity_check Rn ltac:(lia)) as H.
  apply (fun H => int_forall_sound _ _ _ _ H Rd ltac:(lia)) in H.
  cbv beta in H. rewrite leb_of_Z in H by lia.
  rewrite (proj2 (Z.leb_le _ _)) in H by lia.
  unfold severity_cond in H. cbv zeta in H.
  change 5%uint63 with (Uint63.of_Z 5) in H.
  change 2%uint63 with (Uint63.of_Z 2) in H.
  rewrite !of_Z_mul, !ltb_of_Z in H by lia.
  unfold JS.of_nat, JS.of_Z.
  repeat (apply andb_true_iff in H; destruct H as [H ?]).
  apply negb_true_iff in H.
  repeat match goal with E : Bool.eqb _ _ = true |- _ => apply eqb_prop in E end.
  split; [exact H|]. split; [|split; [|split; assumption]].
  - match goal with E : JS.gt _ 0.8%float = _ |- _ => rewrite E end.
    apply eq_true_iff_eq. rewrite Z.ltb_lt, Nat.ltb_lt. lia.
  - match goal with E : JS.gt _ 0.6%float = _ |- _ => rewrite E end.
    apply eq_true_iff_eq. rewrite Z.ltb_lt, Nat.ltb_lt. lia.
Qed.

Lemma mismatches_nonempty (hash1 hash2 : string) :
  String.length hash1 = String.length hash2 -> hash1 <> hash2 ->
  1 <= List.length (mismatches hash1 hash2) <= String.length hash1.
Proof.
  intros Hlen Hneq. split.
  - destruct (mismatches hash1 hash2) eqn:E; [|simpl; lia].
    exfalso. apply Hneq. now apply mismatches_nil_eq.
  - unfold mismatches. rewrite <- (length_seq (String.length hash1) 0) at 2.
    apply filter_length_le.
Qed.

(** X3. For two different hashes of one length up to 1024 bits (every
    hash of sizes up to 32 is), the floating-point classification of
    [compareHashes] agrees with exact arithmetic: with [d] differing bits
    out of [n], the severity is [low] when [5 d < n], [medium] when
    [n <= 5 d < 2 n], [high] when [2 n <= 5 d]; [identical] is false and
    the similarity lies in [0, 1). *)
Theorem compareHashes_exact_severity (hash1 hash2 algorithm : string) :
  String.length hash1 = String.length hash2 ->
  String.length hash1 <= 1024 ->
  hash1 <> hash2 ->
  exists r diff,
    compareHashes hash1 hash2 algorithm = Ok r
    /\ HashComparison.differences r = Some diff
    /\ HashComparison.identical r = false
    /\ 1 <= Differences.count diff <= String.length hash1
    /\ Differences.severity diff
       = (if 5 * Differences.count diff <? String.length hash1 then low
          else if 5 * Differences.count diff <? 2 * String.length hash1 then medium
          else high)
    /\ JS.ge (HashComparison.similarity r) 0%float = true
    /\ JS.gt 1%float (HashComparison.similarity r) = true.
Proof.
  intros Hlen Hmax Hneq.
  pose proof (mismatches_nonempty hash1 hash2 Hlen Hneq) as [Hd1 Hd2].
  destruct (severity_exact (List.length (mismatches hash1 hash2)) (String.length hash1)
              Hd1 Hd2 Hmax) as (E1 & E8 & E6 & E0 & Elt).
  do 2 eexists. split; [apply (compareHashes_unequal _ _ _ Hlen Hneq)|].
  cbv zeta. split; [reflexivity|].
  cbn [HashComparison.differences HashComparison.identical HashComparison.similarity
       Differences.count Differences.severity].
  split; [exact E1|]. split; [lia|].
  split; [now rewrite E8, E6|]. split; [exact E0|exact Elt].
Qed.

Lemma compareHashes_exact_severity_witness :
  exists r diff,
    compareHashes "1111100000" "1111111111" "dhash" = Ok r
    /\ HashComparison.differences r = Some diff
    /\ HashComparison.identical r = false
    /\ Differences.severity diff = high.
Proof.
  destruct (compareHashes_exact_severity "1111100000" "1111111111" "dhash" eq_refl)
    as (r & diff & Hr & Hd & Hi & _ & Hs & _).
  - simpl. lia.
  - discriminate.
  - exists r, diff. split; [exact Hr|]. split; [exact Hd|]. split; [exact Hi|].
    rewrite Hs. vm_compute in Hr. injection Hr as <-. injection Hd as <-. reflexivity.
Defined.

(** ** More on the escalation *)

(** X4. Comparing an image with itself stops at tier 1: when tier 1 is
    configured with a threshold of at most 1 and the hash of the image can
    be generated, the call returns level 1 with an identical result of
    similarity 1, after hashing the image twice and nothing else. *)
Theorem progressiveCompare_same_image (env : Env.t) (this : VisualHasher.t)
    (image : Buffer) (options : option MultiLevelHashOptions.t) (trace : list event)
    (l : Level.t) (h : HashResult.t) :
  MultiLevelHashOptions.level1 (effective_options this options) = Value l ->
  generateHash env image (Level.algorithm l) (Level.size l) = Ok h ->
  JS.ge 1%float (Level.threshold l) = true ->
  progressiveCompare env this image image options trace
  = (Ok (ProgressiveResult.mk 1
           (HashComparison.mk true 1%float (Level.algorithm l) None) false),
     trace ++ [GenerateHash image (Level.algorithm l) (Level.size l);
               GenerateHash image (Level.algorithm l) (Level.size l)]).
Proof.
  intros E Hh Hge. run_blocks. rewrite E.
  rewrite (tier_block_satisfied env 1 l image image
             (HashComparison.mk true 1%float (Level.algorithm l) None)).
  - reflexivity.
  - unfold tier_result, bind. rewrite Hh. apply compareHashes_equal.
  - exact Hge.
Qed.

Lemma progressiveCompare_same_image_witness :
  progressiveCompare raw_env (new_VisualHasher None) sample_image_b sample_image_b None []
  = (Ok (ProgressiveResult.mk 1 (HashComparison.mk true 1%float "dhash" None) false),
     [GenerateHash sample_image_b "dhash" 8; GenerateHash sample_image_b "dhash" 8]).
Proof.
  eapply (progressiveCompare_same_image raw_env (new_VisualHasher None) sample_image_b None []
            (Level.mk "dhash" 8 0.95%float)).
  - reflexivity.
  - vm_compute. reflexivity.
  - vm_compute. reflexivity.
Defined.

(** X5. When no configured tier stops the escalation and tier 4 is not
    enabled (missing, undefined, or [enabled: false]), the call reports
    level 3 with the placeholder result labelled "progressive" and
    [shouldContinue = false], also when tier 3 was not configured. *)
Theorem progressiveCompare_falls_through (env : Env.t) (this : VisualHasher.t)
    (image1 image2 : Buffer) (options : option MultiLevelHashOptions.t)
    (trace : list event) :
  let opts := effective_options this options in
  tier_passed env (MultiLevelHashOptions.level1 opts) image1 image2 ->
  tier_passed env (MultiLevelHashOptions.level2 opts) image1 image2 ->
  tier_passed env (MultiLevelHashOptions.level3 opts) image1 image2 ->
  (forall level4, MultiLevelHashOptions.level4 opts = Value level4 ->
                  Level4.enabled level4 = false) ->
  progressiveCompare env this image1 image2 options trace
  = (Ok (ProgressiveResult.mk 3
           (HashComparison.mk false 0%float "progressive"
              (Some (Differences.mk 0 [] high))) false),
     trace ++ tier_calls (MultiLevelHashOptions.level1 opts) image1 image2
           ++ tier_calls (MultiLevelHashOptions.level2 opts) image1 image2
           ++ tier_calls (MultiLevelHashOptions.level3 opts) image1 image2).
Proof.
  intros opts P1 P2 P3 H4. subst opts. run_blocks.
  rewrite (tier_block_passed _ _ _ _ _ _ P1). unfold tbind at 1.
  rewrite (tier_block_passed _ _ _ _ _ _ P2). unfold tbind at 1.
  rewrite (tier_block_passed _ _ _ _ _ _ P3).
  rewrite <- !app_assoc.
  destruct (MultiLevelHashOptions.level4 (effective_options this options)) as [| |level4];
    try reflexivity.
  now rewrite (H4 level4 eq_refl).
Qed.

Lemma progressiveCompare_falls_through_witness :
  progressiveCompare raw_env (new_VisualHasher None) sample_image_a sample_image_b
    (Some (MultiLevelHashOptions.mk (Value (Level.mk "dhash" 2 0.95%float))
             Undefined Undefined Undefined)) []
  = (Ok (ProgressiveResult.mk 3
           (HashComparison.mk false 0%float "progressive"
              (Some (Differences.mk 0 [] high))) false),
     [GenerateHash sample_image_a "dhash" 2; GenerateHash sample_image_b "dhash" 2]).
Proof.
  apply (progressiveCompare_falls_through raw_env (new_VisualHasher None)
           sample_image_a sample_image_b
           (Some (MultiLevelHashOptions.mk (Value (Level.mk "dhash" 2 0.95%float))
                    Undefined Undefined Undefined)) []).
  - eexists. split; vm_compute; reflexivity.
  - exact I.
  - exact I.
  - discriminate.
Defined.

Lemma tier_block_calls (env : Env.t) (n : nat) (level : property Level.t)
    (image1 image2 : Buffer) (trace : list event) :
  exists calls,
    snd (tier_block env n level image1 image2 trace) = trace ++ calls
    /\ List.length calls <= 2
    /\ (forall c, In c calls -> In c (tier_calls level image1 image2))
    /\ (forall v, fst (tier_block env n level image1 image2 trace) = Ok v ->
                  calls = tier_calls level image1 image2).
Proof.
  destruct level as [| |l];
    try (exists []; simpl; rewrite app_nil_r; repeat split; auto; contradiction).
  rewrite tier_block_run.
  destruct (generateHash env image1 _ _) as [hash1|e].
  - exists (tier_calls (Value l) image1 image2).
    destruct (generateHash env image2 _ _) as [hash2|e];
      [destruct (compareHashes _ _ _) as [result|e]|];
      simpl; repeat split; auto.
  - exists [GenerateHash image1 (Level.algorithm l) (Level.size l)].
    simpl. repeat split; auto; [tauto|discriminate].
Qed.

(** X6. Whatever the images and the options, a call of
    [progressiveCompare] makes at most six calls of [generateHash], each on
    one of the two images with the algorithm and size of a configured tier,
    and leaves the earlier trace untouched.  A call that returns reports a
    level from 1 to 4, and [shouldContinue] is true exactly at level 4,
    where the result is the "semantic" placeholder. *)
Theorem progressiveCompare_outcome_invariant (env : Env.t) (this : VisualHasher.t)
    (image1 image2 : Buffer) (options : option MultiLevelHashOptions.t)
    (trace : list event) :
  let opts := effective_options this options in
  let run := progressiveCompare env this image1 image2 options trace in
  (exists calls,
      snd run = trace ++ calls
      /\ List.length calls <= 6
      /\ (forall c, In c calls ->
                    In c (tier_calls (MultiLevelHashOptions.level1 opts) image1 image2
                          ++ tier_calls (MultiLevelHashOptions.level2 opts) image1 image2
                          ++ tier_calls (MultiLevelHashOptions.level3 opts) image1 image2)))
  /\ (forall out,
         fst run = Ok out ->
         1 <= ProgressiveResult.level out <= 4
         /\ (ProgressiveResult.shouldContinue out = true <-> ProgressiveResult.level out = 4)
         /\ (ProgressiveResult.level out = 4 ->
             ProgressiveResult.result out = placeholder "semantic")).
Proof.
  intros opts run. subst opts run. rewrite progressiveCompare_blocks. cbv zeta.
  set (l1 := MultiLevelHashOptions.level1 _).
  set (l2 := MultiLevelHashOptions.level2 _).
  set (l3 := MultiLevelHashOptions.level3 _).
  set (l4 := MultiLevelHashOptions.level4 _).
  unfold tbind.
  destruct (tier_block_calls env 1 l1 image1 image2 trace) as (c1 & T1 & N1 & I1 & _).
  destruct (tier_block env 1 l1 image1 image2 trace) as [[[p|]|e] t1] eqn:B1;
    simpl in T1; subst t1.
  { apply tier_block_level in B1. destruct B1 as [B1 B1'].
    unfold ret. simpl. split.
    - exists c1. repeat split; [lia|]. intros c Hc. apply in_or_app. left. auto.
    - intros out H. injection H as <-. rewrite B1, B1'.
      split; [lia|]. split; [split; [discriminate|lia]|lia]. }
  2:{ simpl. split; [|discriminate].
      exists c1. repeat split; [lia|]. intros c Hc. apply in_or_app. left. auto. }
  destruct (tier_block_calls env 2 l2 image1 image2 (trace ++ c1)) as (c2 & T2 & N2 & I2 & _).
  destruct (tier_block env 2 l2 image1 image2 (trace ++ c1)) as [[[p|]|e] t2] eqn:B2;
    simpl in T2; subst t2.
  { apply tier_block_level in B2. destruct B2 as [B2 B2'].
    unfold ret. simpl. split.
    - exists (c1 ++ c2). rewrite app_assoc, length_app. repeat split; [lia|].
      intros c Hc. rewrite app_assoc. apply in_or_app. left.
      apply in_app_or in Hc. apply in_or_app. destruct Hc; auto.
    - intros out H. injection H as <-. rewrite B2, B2'.
      split; [lia|]. split; [split; [discriminate|lia]|lia]. }
  2:{ simpl. split; [|discriminate].
      exists (c1 ++ c2). rewrite app_assoc, length_app. repeat split; [lia|].
      intros c Hc. rewrite app_assoc. apply in_or_app. left.
      apply in_app_or in Hc. apply in_or_app. destruct Hc; auto. }
  destruct (tier_block_calls env 3 l3 image1 image2 ((trace ++ c1) ++ c2))
    as (c3 & T3 & N3 & I3 & _).
  assert (forall c, In c (c1 ++ c2 ++ c3) ->
                    In c (tier_calls l1 image1 image2 ++ tier_calls l2 image1 image2
                          ++ tier_calls l3 image1 image2)) as Hall.
  { intros c Hc. apply in_app_or in Hc. destruct Hc as [Hc|Hc].
    - apply in_or_app. left. auto.
    - apply in_or_app. right. apply in_app_or in Hc. apply in_or_app.
      destruct Hc; auto. }
  destruct (tier_block env 3 l3 image1 image2 ((trace ++ c1) ++ c2)) as [[[p|]|e] t3] eqn:B3;
    simpl in T3; subst t3.
  { apply tier_block_level in B3. destruct B3 as [B3 B3'].
    unfold ret. simpl. split.
    - exists (c1 ++ c2 ++ c3). rewrite !app_assoc, !length_app.
      repeat split; [lia|]. rewrite <- !app_assoc. exact Hall.
    - intros out H. injection H as <-. rewrite B3, B3'.
      split; [lia|]. split; [split; [discriminate|lia]|lia]. }
  2:{ simpl. split; [|discriminate].
      exists (c1 ++ c2 ++ c3). rewrite !app_assoc, !length_app.
      repeat split; [lia|]. rewrite <- !app_assoc. exact Hall. }
  split.
  - exists (c1 ++ c2 ++ c3).
    assert (forall r : ProgressiveResult.t,
               snd (ret r (((trace ++ c1) ++ c2) ++ c3)) = trace ++ c1 ++ c2 ++ c3) as Hs
        by (intros r; simpl; now rewrite <- !app_assoc).
    split; [|split; [rewrite !length_app; lia|exact Hall]].
    destruct l4 as [| |level4]; [apply Hs|apply Hs|].
    destruct (Level4.enabled level4); apply Hs.
  - intros out. destruct l4 as [| |level4]; [| |destruct (Level4.enabled level4)];
      unfold ret; simpl; intros H; injection H as <-; simpl;
      (split; [lia|]); (split; [split; [try discriminate; reflexivity|try lia; try reflexivity]
                               |try lia; try reflexivity]).
Qed.

(** X7. A failure at a tier the escalation reaches is fatal and is not
    altered: if generating one of the two hashes or comparing them fails
    with an error, [progressiveCompare] fails with that same error and no
    later tier is run. *)
Theorem progressiveCompare_propagates_failure (env : Env.t) (this : VisualHasher.t)
    (image1 image2 : Buffer) (options : option MultiLevelHashOptions.t)
    (trace : list event) (l : Level.t) (e : error) :
  let opts := effective_options this options in
  tier_result env l image1 image2 = Err e ->
  (MultiLevelHashOptions.level1 opts = Value l
   \/ (tier_passed env (MultiLevelHashOptions.level1 opts) image1 image2
       /\ MultiLevelHashOptions.level2 opts = Value l)
   \/ (tier_passed env (MultiLevelHashOptions.level1 opts) image1 image2
       /\ tier_passed env (MultiLevelHashOptions.level2 opts) image1 image2
       /\ MultiLevelHashOptions.level3 opts = Value l)) ->
  fst (progressiveCompare env this image1 image2 options trace) = Err e.
Proof.
  intros opts He Hreach. subst opts.
  assert (forall n t, fst (tier_block env n (Value l) image1 image2 t) = Err e) as Hb.
  { intros n t. rewrite tier_block_run. unfold tier_result, bind in He.
    destruct (generateHash env image1 _ _) as [hash1|e1]; [|now injection He as <-].
    destruct (generateHash env image2 _ _) as [hash2|e2]; [|now injection He as <-].
    destruct (compareHashes _ _ _) as [r|e3]; [discriminate|now injection He as <-]. }
  assert (forall n t (k : option ProgressiveResult.t -> traced ProgressiveResult.t),
             fst (tbind (tier_block env n (Value l) image1 image2) k t) = Err e) as Hk.
  { intros n t k. unfold tbind. specialize (Hb n t).
    destruct (tier_block env n (Value l) image1 image2 t) as [[v|e'] t']; simpl in Hb;
      [discriminate|]. simpl. now injection Hb as ->. }
  rewrite progressiveCompare_blocks. cbv zeta.
  destruct Hreach as [E|[(P1 & E)|(P1 & P2 & E)]].
  - rewrite E. apply Hk.
  - unfold tbind at 1. rewrite (tier_block_passed _ _ _ _ _ _ P1). rewrite E. apply Hk.
  - unfold tbind at 1. rewrite (tier_block_passed _ _ _ _ _ _ P1).
    unfold tbind at 1. rewrite (tier_block_passed _ _ _ _ _ _ P2). rewrite E. apply Hk.
Qed.

Lemma progressiveCompare_propagates_failure_witness :
  fst (progressiveCompare (stub_env (fun _ => Err (ExternalError "Input Buffer is empty")))
         (new_VisualHasher None) [] [] None [])
  = Err (HashGenerationFailed "dhash" (ExternalError "Input Buffer is empty")).
Proof.
  apply (progressiveCompare_propagates_failure
           (stub_env (fun _ => Err (ExternalError "Input Buffer is empty")))
           (new_VisualHasher None) [] [] None [] (Level.mk "dhash" 8 0.95%float)).
  - reflexivity.
  - left. reflexivity.
Defined.

(** ** Options *)

Lemma spread_property_layered {A : Type} (default : A) (constructed called : property A) :
  layered (spread_property (spread_property (Value default) constructed) called)
    (Value default) constructed called.
Proof.
  unfold layered. destruct called, constructed; simpl; repeat split; congruence.
Qed.

(** X8. The options a call works with are layered property by property:
    a tier given in the options of the call (even as [undefined], which
    switches the tier off) replaces the one given to the constructor, which
    replaces the default; tiers are replaced whole.  Without constructor
    and call options the defaults apply, and an empty options object at the
    call changes nothing. *)
Theorem options_are_layered (constructed called : MultiLevelHashOptions.t) :
  let effective := effective_options (new_VisualHasher (Some constructed)) (Some called) in
  layered (MultiLevelHashOptions.level1 effective)
    (MultiLevelHashOptions.level1 defaultOptions)
    (MultiLevelHashOptions.level1 constructed) (MultiLevelHashOptions.level1 called)
  /\ layered (MultiLevelHashOptions.level2 effective)
       (MultiLevelHashOptions.level2 defaultOptions)
       (MultiLevelHashOptions.level2 constructed) (MultiLevelHashOptions.level2 called)
  /\ layered (MultiLevelHashOptions.level3 effective)
       (MultiLevelHashOptions.level3 defaultOptions)
       (MultiLevelHashOptions.level3 constructed) (MultiLevelHashOptions.level3 called)
  /\ layered (MultiLevelHashOptions.level4 effective)
       (MultiLevelHashOptions.level4 defaultOptions)
       (MultiLevelHashOptions.level4 constructed) (MultiLevelHashOptions.level4 called)
  /\ effective_options (new_VisualHasher None) None = defaultOptions
  /\ effective_options (new_VisualHasher (Some constructed)) (Some no_options)
     = effective_options (new_VisualHasher (Some constructed)) None.
Proof.
  cbv zeta. unfold effective_options, new_VisualHasher, spread. simpl.
  repeat split; try apply spread_property_layered; try reflexivity.
Qed.

(** ** The shape of a hash result *)

Lemma hash_of_bits_is_bit_string (bits : list bool) : is_bit_string (hash_of_bits bits).
Proof.
  intros i c. rewrite hash_of_bits_get.
  destruct (nth_error bits i) as [[|]|]; simpl; intros [= <-]; auto.
Qed.

Lemma push_bit_loop_is_bit_string {A : Type} (f : A -> bool) (l : list A) :
  is_bit_string (fold_left (fun hash a => push_bit hash (f a)) l EmptyString).
Proof. rewrite push_bit_loop. apply hash_of_bits_is_bit_string. Qed.

Lemma generateHash_is_bit_string (env : Env.t) (imageBuffer : Buffer) (algorithm : string)
    (size : nat) (r : HashResult.t) :
  generateHash env imageBuffer algorithm size = Ok r ->
  is_bit_string (HashResult.hash r).
Proof.
  intros Hr. apply generateHash_Ok_inv in Hr.
  destruct Hr as (h & c & m & Hd & ->). simpl.
  dispatch_inversion env imageBuffer algorithm size;
    try discriminate;
    unfold bind in Hd;
    repeat match type of Hd with
           | match ?x with Ok _ => _ | Err _ => _ end = _ =>
               let E := fresh "E" in destruct x eqn:E; [|discriminate]
           end;
    injection Hd as <- _ _.
  - rewrite averageHash_pixels_bits. apply hash_of_bits_is_bit_string.
  - rewrite differenceHash_pixels_bits. apply hash_of_bits_is_bit_string.
  - apply push_bit_loop_is_bit_string.
  - apply push_bit_loop_is_bit_string.
  - apply push_bit_loop_is_bit_string.
  - rewrite blockHash_pixels_bits. apply hash_of_bits_is_bit_string.
  - apply push_bit_loop_is_bit_string.
  - apply push_bit_loop_is_bit_string.
  - apply push_bit_loop_is_bit_string.
Qed.

(** X9. A result of [generateHash] is well formed: its hash consists of
    the characters 0 and 1 only, it carries the algorithm name it was asked
    for, which is one of the nine known names, its metadata start with the
    size, and its confidence is a number in (0, 1]. *)
Theorem generateHash_result_shape (env : Env.t) (imageBuffer : Buffer) (algorithm : string)
    (size : nat) (r : HashResult.t) :
  generateHash env imageBuffer algorithm size = Ok r ->
  is_bit_string (HashResult.hash r)
  /\ HashResult.algorithm r = algorithm
  /\ In algorithm known_algorithms
  /\ (exists annotations,
         HashResult.metadata r = ("size"%string, MetaNumber size) :: annotations)
  /\ JS.gt (HashResult.confidence r) 0%float = true
  /\ JS.ge 1%float (HashResult.confidence r) = true.
Proof.
  intros Hr. split; [apply (generateHash_is_bit_string _ _ _ _ _ Hr)|].
  apply generateHash_Ok_inv in Hr.
  destruct Hr as (h & c & m & Hd & ->). simpl.
  split; [reflexivity|].
  dispatch_inversion env imageBuffer algorithm size;
    try discriminate;
    unfold bind in Hd;
    repeat match type of Hd with
           | match ?x with Ok _ => _ | Err _ => _ end = _ =>
               let E := fresh "E" in destruct x eqn:E; [|discriminate]
           end;
    injection Hd as _ <- <-;
    (split; [simpl; tauto|]); (split; [eexists; reflexivity|]); split; reflexivity.
Qed.

Lemma generateHash_result_shape_witness :
  exists r,
    generateHash raw_env sample_image_a "blockhash" 1 = Ok r
    /\ is_bit_string (HashResult.hash r)
    /\ HashResult.algorithm r = "blockhash"%string.
Proof.
  eexists. split; [vm_compute; reflexivity|].
  destruct (generateHash_result_shape raw_env sample_image_a "blockhash" 1 _ eq_refl)
    as (H1 & H2 & _).
  split; [exact H1|exact H2].
Defined.

(** ** The difference hash in exact arithmetic *)

Lemma gt_samples_check :
  int_forall 256 0%uint63
    (fun a =>
       int_forall 256 0%uint63
         (fun b => Bool.eqb (JS.gt (of_uint63 a) (of_uint63 b)) (b <? a)%uint63))
  = true.
Proof. vm_compute. reflexivity. Qed.

Lemma gt_samples (a b : byte) :
  JS.gt (sample a) (sample b) = (Byte.to_N b <? Byte.to_N a)%N.
Proof.
  pose proof (Byte.to_N_bounded a) as Ha. pose proof (Byte.to_N_bounded b) as Hb.
  assert (Uint63.to_Z 0 <= Z.of_N (Byte.to_N a) < Uint63.to_Z 0 + Z.of_nat 256)%Z as Ra
      by (rewrite Uint63.to_Z_0; lia).
  assert (Uint63.to_Z 0 <= Z.of_N (Byte.to_N b) < Uint63.to_Z 0 + Z.of_nat 256)%Z as Rb
      by (rewrite Uint63.to_Z_0; lia).
  pose proof (int_forall_sound _ _ _ _ gt_samples_check Ra ltac:(lia)) as H.
  apply (fun H => int_forall_sound _ _ _ _ H Rb ltac:(lia)) in H.
  cbv beta in H. apply eqb_prop in H.
  unfold sample, JS.of_Z. rewrite H, ltb_of_Z by lia.
  apply eq_true_iff_eq. rewrite Z.ltb_lt, N.ltb_lt. lia.
Qed.

(** X11. Where both samples are in the buffer, the bit of the difference
    hash at row [y], column [x] is 1 exactly when the sample at [(y, x)] of
    the [(size + 1)]-wide grid is greater, as an integer, than its right
    neighbour. *)
Theorem differenceHash_compares_neighbours (pixels : Uint8Array) (size y x : nat)
    (current next : byte) :
  y < size -> x < size ->
  nth_error pixels (y * (size + 1) + x) = Some current ->
  nth_error pixels (y * (size + 1) + x + 1) = Some next ->
  String.get (y * size + x) (differenceHash_pixels pixels size)
  = Some (if (Byte.to_N next <? Byte.to_N current)%N then "1" else "0")%char.
Proof.
  intros Hy Hx Hc Hn. rewrite differenceHash_pixels_get by assumption.
  unfold px. rewrite Hc, Hn. now rewrite gt_samples.
Qed.

Lemma differenceHash_compares_neighbours_witness :
  String.get 1 (differenceHash_pixels sample_image_b 2) = Some "0"%char.
Proof.
  apply (differenceHash_compares_neighbours sample_image_b 2 0 1 (u8 20) (u8 30));
    [lia|lia|reflexivity|reflexivity].
Defined.

(** ** The exported presets *)

(** X12. The presets fix algorithm and size: a result of [quickHash] has
    64 bits and confidence 1, one of the exported [perceptualHash] has 32
    bits and confidence 0.95, one of [detailedHash] has 900 bits,
    confidence 0.88 and the annotation [structuralFeatures]. *)
Theorem presets_hash_lengths (env : Env.t) (imageBuffer : Buffer) :
  (forall r, Exports.quickHash env imageBuffer = Ok r ->
             String.length (HashResult.hash r) = 64
             /\ HashResult.algorithm r = "dhash"%string
             /\ HashResult.confidence r = 1%float
             /\ HashResult.metadata r = [("size"%string, MetaNumber 8)])
  /\ (forall r, Exports.perceptualHash env imageBuffer = Ok r ->
                String.length (HashResult.hash r) = 32
                /\ HashResult.algorithm r = "perceptual"%string
                /\ HashResult.confidence r = 0.95%float
                /\ HashResult.metadata r = [("size"%string, MetaNumber 16)])
  /\ (forall r, Exports.detailedHash env imageBuffer = Ok r ->
                String.length (HashResult.hash r) = 900
                /\ HashResult.algorithm r = "structural"%string
                /\ HashResult.confidence r = 0.88%float
                /\ HashResult.metadata r
                   = [("size", MetaNumber 32); ("structuralFeatures", MetaBool true)]%string).
Proof.
  unfold Exports.quickHash, Exports.perceptualHash, Exports.detailedHash.
  split; [|split]; intros r Hr.
  - split; [apply (generateHash_length env imageBuffer "dhash" 8 r); [discriminate|exact Hr]|].
    unfold generateHash, dispatch in Hr. simpl in Hr.
    unfold differenceHash, bind in Hr.
    destruct (Env.sharp_resize_raw env imageBuffer _ _ _); [|discriminate].
    injection Hr as <-. repeat split.
  - split; [apply (generateHash_length env imageBuffer "perceptual" 16 r);
            [discriminate|exact Hr]|].
    unfold generateHash, dispatch in Hr. simpl in Hr.
    unfold advancedPerceptualHash, bind in Hr.
    destruct (Env.sharp_resize_raw env imageBuffer _ _ _); [|discriminate].
    destruct (Env.sharp_blur_raw env _ _); [|discriminate].
    injection Hr as <-. repeat split.
  - split; [apply (generateHash_length env imageBuffer "structural" 32 r);
            [discriminate|exact Hr]|].
    unfold generateHash, dispatch in Hr. simpl in Hr.
    unfold structuralHash, bind in Hr.
    destruct (Env.sharp_resize_raw env imageBuffer _ _ _); [|discriminate].
    injection Hr as <-. repeat split.
Qed.

(** ** The median *)

Lemma SFcompare_antisym (x y : spec_float) :
  SFcompare y x = option_map CompOpp (SFcompare x y).
Proof.
  destruct x as [sx|sx| |sx mx ex], y as [sy|sy| |sy my ey]; simpl;
    try reflexivity;
    try (destruct sx; reflexivity); try (destruct sy; reflexivity);
    try (destruct sx, sy; reflexivity).
  destruct sx, sy; simpl; try reflexivity; f_equal;
    rewrite (Z.compare_antisym ey ex);
    destruct (ey ?= ex)%Z; simpl; try reflexivity;
    rewrite ?(Pos.compare_cont_antisym mx my Eq); simpl;
    now rewrite ?CompOpp_involutive.
Qed.

Lemma leb_not_gt (a b : number) : PrimFloat.leb a b = true -> PrimFloat.ltb b a = false.
Proof.
  rewrite FloatAxioms.leb_spec, FloatAxioms.ltb_spec. unfold SFleb, SFltb.
  rewrite (SFcompare_antisym (Prim2SF a) (Prim2SF b)).
  destruct (SFcompare (Prim2SF a) (Prim2SF b)) as [[| |]|]; simpl; congruence.
Qed.

Lemma ltb_irrefl (a : number) : PrimFloat.ltb a a = false.
Proof.
  rewrite FloatAxioms.ltb_spec. unfold SFltb.
  pose proof (SFcompare_antisym (Prim2SF a) (Prim2SF a)) as H.
  destruct (SFcompare (Prim2SF a) (Prim2SF a)) as [[| |]|]; simpl in *; congruence.
Qed.

Lemma sort_insert_perm (compare : number -> number -> number) (x : number)
    (sorted : list number) :
  Permutation (sort_insert compare x sorted) (x :: sorted).
Proof.
  induction sorted as [|y rest IH]; simpl; [apply Permutation_refl|].
  destruct (PrimFloat.ltb (compare x y) 0%float); [apply Permutation_refl|].
  eapply perm_trans; [apply perm_skip, IH|apply perm_swap].
Qed.

Lemma insertion_sort_perm (compare : number -> number -> number) (values : list number) :
  Permutation (insertion_sort compare values) values.
Proof.
  unfold insertion_sort.
  assert (forall l, Permutation (fold_right (sort_insert compare) [] l) l) as H.
  { induction l as [|x l IH]; simpl; [constructor|].
    eapply perm_trans; [apply sort_insert_perm|]. now apply perm_skip. }
  eapply perm_trans; [apply H|]. apply Permutation_sym, Permutation_rev.
Qed.

Lemma filter_length_perm (p : number -> bool) (l l' : list number) :
  Permutation l l' -> List.length (filter p l) = List.length (filter p l').
Proof.
  induction 1 as [|x l l' _ IH|x y l|l l' l'' _ IH1 _ IH2]; simpl.
  - reflexivity.
  - destruct (p x); simpl; lia.
  - destruct (p x), (p y); reflexivity.
  - lia.
Qed.

Lemma filter_none (p : number -> bool) (l : list number) :
  Forall (fun v => p v = false) l -> filter p l = [].
Proof.
  induction 1 as [|x l Hx _ IH]; simpl; [reflexivity|]. now rewrite Hx.
Qed.

Lemma ascending_split (l1 l2 : list number) (x : number) :
  ascending (l1 ++ x :: l2) ->
  Forall (fun a => PrimFloat.leb a x = true) l1
  /\ Forall (fun b => PrimFloat.leb x b = true) l2.
Proof.
  unfold ascending. induction l1 as [|a l1 IH]; simpl; intros H.
  - inversion H; subst. split; [constructor|assumption].
  - inversion H as [|? ? Hs Hf]; subst. destruct (IH Hs) as [H1 H2].
    split; [|exact H2]. constructor; [|exact H1].
    apply Forall_app in Hf. destruct Hf as [_ Hf]. now inversion Hf.
Qed.

(** In an ascending array at most [i] values are below the one at index
    [i] and at most [length - 1 - i] above it. *)
Lemma ascending_rank (sorted : list number) (i : nat) :
  ascending sorted -> i < List.length sorted ->
  below (JS.index sorted i) sorted <= i
  /\ above (JS.index sorted i) sorted <= List.length sorted - 1 - i.
Proof.
  intros Ha Hi. unfold JS.index.
  destruct (nth_split sorted nan Hi) as (l1 & l2 & E & L1).
  set (x := nth i sorted nan) in *.
  rewrite E in Ha. destruct (ascending_split _ _ _ Ha) as [H1 H2].
  unfold below, above. rewrite E, !filter_app, !length_app. simpl.
  rewrite ltb_irrefl. split.
  - rewrite (filter_none _ l2).
    + simpl. rewrite Nat.add_0_r, <- L1. apply filter_length_le.
    + eapply Forall_impl; [|exact H2]. intros b Hb. now apply leb_not_gt.
  - rewrite (filter_none _ l1).
    + simpl. rewrite L1.
      replace (i + S (List.length l2) - 1 - i) with (List.length l2) by lia.
      apply filter_length_le.
    + eapply Forall_impl; [|exact H1]. intros a Hb. now apply leb_not_gt.
Qed.

Lemma ascending_index (sorted : list number) (i j : nat) :
  ascending sorted -> i < j -> j < List.length sorted ->
  PrimFloat.leb (JS.index sorted i) (JS.index sorted j) = true.
Proof.
  intros Ha Hij Hj. unfold JS.index.
  assert (i < List.length sorted) as Hi by lia.
  destruct (nth_split sorted nan Hi) as (l1 & l2 & E & L1).
  set (x := nth i sorted nan) in *.
  rewrite E in Ha. destruct (ascending_split _ _ _ Ha) as [_ H2].
  rewrite E at 1. rewrite app_nth2 by lia.
  replace (j - List.length l1) with (S (j - i - 1)) by lia. simpl.
  rewrite Forall_forall in H2. apply H2, nth_In.
  rewrite E, length_app in Hj. simpl in Hj. lia.
Qed.

Lemma index_In (arr : list number) (i : nat) :
  i < List.length arr -> In (JS.index arr i) arr.
Proof. intros H. now apply nth_In. Qed.

(** X13. When the engine's sort returns the values in ascending order (a
    rearrangement of the input in which no value is above a later one),
    [median] returns a middle value.  For an odd number of values it is one
    of them, with fewer than half of the values below it and fewer than
    half above.  For an even, positive number it is the half-sum of two of
    them, [a <= b], with fewer than half of the values below [a], fewer
    than half above [b], and at most half on the other side of each. *)
Theorem median_is_middle_value (Array_sort : Sort) (values : list number) :
  Permutation (Array_sort (fun a b => (a - b)%float) values) values ->
  ascending (Array_sort (fun a b => (a - b)%float) values) ->
  (List.length values mod 2 = 1 ->
   In (median Array_sort values) values
   /\ 2 * below (median Array_sort values) values < List.length values
   /\ 2 * above (median Array_sort values) values < List.length values)
  /\ (List.length values mod 2 = 0 -> values <> [] ->
      exists a b,
        median Array_sort values = ((a + b) / 2)%float
        /\ In a values /\ In b values
        /\ PrimFloat.leb a b = true
        /\ 2 * below a values < List.length values
        /\ 2 * above a values <= List.length values
        /\ 2 * below b values <= List.length values
        /\ 2 * above b values < List.length values).
Proof.
  intros P Ha.
  pose proof (Permutation_length P) as L.
  assert (forall m, below m values
                    = below m (Array_sort (fun a b => (a - b)%float) values)) as Hb.
  { intros m. unfold below. symmetry. now apply filter_length_perm. }
  assert (forall m, above m values
                    = above m (Array_sort (fun a b => (a - b)%float) values)) as Hab.
  { intros m. unfold above. symmetry. now apply filter_length_perm. }
  unfold median. cbv zeta. rewrite L.
  set (sorted := Array_sort (fun a b => (a - b)%float) values) in *.
  set (n := List.length values) in *.
  pose proof (Nat.div_mod_eq n 2) as Hn.
  split.
  - intros Hodd. rewrite Hodd. simpl Nat.eqb. cbv iota.
    assert (n / 2 < List.length sorted) as Hmid by lia.
    destruct (ascending_rank sorted (n / 2) Ha Hmid) as [R1 R2].
    split; [|split].
    + apply (Permutation_in _ P), index_In, Hmid.
    + rewrite Hb. lia.
    + rewrite Hab. lia.
  - intros Heven Hne. rewrite Heven. simpl Nat.eqb. cbv iota.
    assert (0 < n) as Hpos.
    { subst n. destruct values; [contradiction|simpl; lia]. }
    destruct (n / 2) as [|m] eqn:Em; [lia|].
    assert (m < List.length sorted) as Hm by lia.
    assert (S m < List.length sorted) as HSm by lia.
    destruct (ascending_rank sorted m Ha Hm) as [A1 A2].
    destruct (ascending_rank sorted (S m) Ha HSm) as [B1 B2].
    exists (JS.index sorted m), (JS.index sorted (S m)).
    split; [reflexivity|].
    split; [apply (Permutation_in _ P), index_In, Hm|].
    split; [apply (Permutation_in _ P), index_In, HSm|].
    split; [apply ascending_index; [exact Ha|lia|exact HSm]|].
    rewrite !Hb, !Hab. lia.
Qed.

Lemma median_is_middle_value_witness :
  median insertion_sort (map JS.of_nat [5; 3; 1; 4; 2]) = 3%float
  /\ In (median insertion_sort (map JS.of_nat [5; 3; 1; 4; 2])) (map JS.of_nat [5; 3; 1; 4; 2])
  /\ 2 * below (median insertion_sort (map JS.of_nat [5; 3; 1; 4; 2]))
           (map JS.of_nat [5; 3; 1; 4; 2]) < 5.
Proof.
  split; [vm_compute; reflexivity|].
  destruct (median_is_middle_value insertion_sort (map JS.of_nat [5; 3; 1; 4; 2])
              (insertion_sort_perm _ _)) as [H _].
  - vm_compute. repeat constructor.
  - destruct (H eq_refl) as (H1 & H2 & _). split; [exact H1|exact H2].
Defined.

(** ** The loops of the wavelet transform *)

Lemma for_steps_fuel (next : nat -> nat) (stop fuel1 fuel2 i : nat) :
  (forall j, i <= j -> j < next j) ->
  stop <= fuel1 + i -> stop <= fuel2 + i ->
  for_steps fuel1 next i stop = for_steps fuel2 next i stop.
Proof.
  revert fuel2 i. induction fuel1 as [|fuel1 IH]; intros fuel2 i Hnext H1 H2.
  - destruct fuel2 as [|fuel2]; [reflexivity|]. simpl.
    destruct (Nat.ltb_spec i stop); [lia|reflexivity].
  - destruct fuel2 as [|fuel2]; simpl.
    + destruct (Nat.ltb_spec i stop); [lia|reflexivity].
    + destruct (Nat.ltb_spec i stop); [|reflexivity].
      f_equal. pose proof (Hnext i (le_n i)).
      apply IH; [intros j Hj; apply Hnext; lia|lia|lia].
Qed.

Lemma for_steps_pow2 (fuel k size : nat) :
  size <= fuel + 2 ^ k ->
  for_steps fuel (fun step => step * 2) (2 ^ k) size
  = map (Nat.pow 2) (seq k (Nat.log2_up size - k)).
Proof.
  revert k. induction fuel as [|fuel IH]; intros k H.
  - simpl. replace (Nat.log2_up size - k) with 0; [reflexivity|].
    destruct size as [|size]; [reflexivity|].
    assert (~ k < Nat.log2_up (S size)) as Hk.
    { intros C. apply Nat.log2_up_lt_pow2 in C; lia. }
    lia.
  - simpl. pose proof (Nat.pow_nonzero 2 k ltac:(lia)) as Hpos.
    destruct (Nat.ltb_spec (2 ^ k) size) as [Hlt|Hge].
    + assert (k < Nat.log2_up size) as Hk by (apply Nat.log2_up_lt_pow2; lia).
      replace (Nat.log2_up size - k) with (S (Nat.log2_up size - S k)) by lia.
      simpl. f_equal.
      replace (2 ^ k * 2) with (2 ^ S k) by (simpl; lia).
      apply IH. simpl. lia.
    + replace (Nat.log2_up size - k) with 0; [reflexivity|].
      destruct size as [|size]; [reflexivity|].
      assert (~ k < Nat.log2_up (S size)) as Hk.
      { intros C. apply Nat.log2_up_lt_pow2 in C; lia. }
      lia.
Qed.

Lemma for_steps_multiples (fuel d k size : nat) :
  1 <= d -> size <= fuel + k * d ->
  for_steps fuel (fun i => i + d) (k * d) size
  = map (fun k => k * d) (seq k ((size + d - 1) / d - k)).
Proof.
  intros Hd. revert k. induction fuel as [|fuel IH]; intros k H.
  - simpl. replace ((size + d - 1) / d - k) with 0; [reflexivity|].
    assert ((size + d - 1) / d < S k); [|lia].
    apply Nat.Div0.div_lt_upper_bound; nia.
  - simpl. destruct (Nat.ltb_spec (k * d) size) as [Hlt|Hge].
    + assert (k < (size + d - 1) / d) as Hk.
      { apply (Nat.div_le_lower_bound (size + d - 1) d (S k)); nia. }
      replace ((size + d - 1) / d - k) with (S ((size + d - 1) / d - S k)) by lia.
      simpl. f_equal.
      replace (k * d + d) with (S k * d) by lia.
      apply IH. lia.
    + replace ((size + d - 1) / d - k) with 0; [reflexivity|].
      assert ((size + d - 1) / d < S k); [|lia].
      apply Nat.Div0.div_lt_upper_bound; nia.
Qed.

Lemma fold_left_ext_in {A B : Type} (f g : A -> B -> A) (l : list B) (a : A) :
  (forall a b, In b l -> f a b = g a b) -> fold_left f l a = fold_left g l a.
Proof.
  revert a. induction l as [|b l IH]; intros a H; simpl; [reflexivity|].
  rewrite H by (now left). apply IH. intros a' b' Hb. apply H. now right.
Qed.

(** X14. [haarWavelet] copies the input and then makes one pass for each
    power of two below [size], [ceil (log2 size)] passes in all; the pass
    with a given [step] pairs the row [i] with the row [i + step] for [i]
    running over the multiples of [2 * step] below [size].  For a [size] of
    0 or 1 it makes no pass and returns the copy; on a full 2 by 2 grid the
    one pass leaves the half-sums of the two columns in the first row and
    their half-differences in the second. *)
Theorem haarWavelet_passes (pixels : Uint8Array) (size : nat) :
  haarWavelet pixels size
  = fold_left
      (fun result step =>
         fold_left (haar_rows size step) (multiples_below (step * 2) size) result)
      (map (Nat.pow 2) (seq 0 (Nat.log2_up size)))
      (haar_input pixels size)
  /\ (size <= 1 -> haarWavelet pixels size = haar_input pixels size)
  /\ (forall a b c d,
         haarWavelet [a; b; c; d] 2
         = [((sample a + sample c) / 2)%float; ((sample b + sample d) / 2)%float;
            ((sample a - sample c) / 2)%float; ((sample b - sample d) / 2)%float]).
Proof.
  assert (for_steps size (fun step => step * 2) 1 size
          = map (Nat.pow 2) (seq 0 (Nat.log2_up size))) as Hsteps.
  { pose proof (for_steps_pow2 size 0 size ltac:(simpl; lia)) as H.
    rewrite Nat.sub_0_r in H. exact H. }
  assert (haarWavelet pixels size
          = fold_left
              (fun result step =>
                 fold_left (haar_rows size step) (multiples_below (step * 2) size) result)
              (map (Nat.pow 2) (seq 0 (Nat.log2_up size)))
              (haar_input pixels size)) as Hclosed.
  { unfold haarWavelet. cbv zeta. rewrite Hsteps. fold (haar_input pixels size).
    apply fold_left_ext_in. intros result step Hin.
    apply in_map_iff in Hin. destruct Hin as (k & <- & _).
    pose proof (Nat.pow_nonzero 2 k ltac:(lia)) as Hpos.
    pose proof (for_steps_multiples size (2 ^ k * 2) 0 size ltac:(lia) ltac:(lia)) as H.
    simpl Nat.mul in H at 1. rewrite Nat.sub_0_r in H.
    unfold multiples_below. rewrite <- H. reflexivity. }
  split; [exact Hclosed|]. split.
  - intros Hs. rewrite Hclosed.
    replace (Nat.log2_up size) with 0; [reflexivity|].
    destruct size as [|[|size]]; [reflexivity|reflexivity|lia].
  - intros a b c d. unfold haarWavelet. cbn -[sample]. reflexivity.
Qed.

(** ** Arrays and the cosine transform *)

Lemma array_set_nil (i : nat) (v : number) : array_set [] i v = repeat nan i ++ [v].
Proof. unfold array_set. simpl. now rewrite Nat.sub_0_r. Qed.

Lemma array_set_cons_0 (a : number) (arr : list number) (v : number) :
  array_set (a :: arr) 0 v = v :: arr.
Proof. reflexivity. Qed.

Lemma array_set_cons_S (a : number) (arr : list number) (i : nat) (v : number) :
  array_set (a :: arr) (S i) v = a :: array_set arr i v.
Proof.
  unfold array_set. simpl List.length.
  change (S i <? S (List.length arr)) with (i <? List.length arr).
  destruct (i <? List.length arr); reflexivity.
Qed.

Lemma index_repeat_nan (n j : nat) (tail : list number) :
  j < n -> JS.index (repeat nan n ++ tail) j = nan.
Proof.
  revert j. induction n as [|n IH]; intros j H; [lia|].
  destruct j as [|j]; [reflexivity|]. simpl. apply IH. lia.
Qed.

Lemma index_array_set_same (arr : list number) (i : nat) (v : number) :
  JS.index (array_set arr i v) i = v.
Proof.
  revert i. induction arr as [|a arr IH]; intros i.
  - rewrite array_set_nil. unfold JS.index.
    rewrite app_nth2 by (rewrite repeat_length; lia).
    now rewrite repeat_length, Nat.sub_diag.
  - destruct i as [|i]; [reflexivity|]. rewrite array_set_cons_S. apply IH.
Qed.

Lemma index_array_set_other (arr : list number) (i j : nat) (v : number) :
  i <> j -> JS.index (array_set arr i v) j = JS.index arr j.
Proof.
  revert i j. induction arr as [|a arr IH]; intros i j H.
  - rewrite array_set_nil.
    destruct (Nat.lt_ge_cases j i) as [Hlt|Hge].
    + rewrite index_repeat_nan by exact Hlt. unfold JS.index. now destruct j.
    + unfold JS.index.
      rewrite nth_overflow by (rewrite length_app, repeat_length; simpl; lia).
      now destruct j.
  - destruct i as [|i], j as [|j].
    + lia.
    + reflexivity.
    + now rewrite array_set_cons_S.
    + rewrite array_set_cons_S. unfold JS.index. simpl. apply IH. lia.
Qed.

Lemma array_set_length_in (arr : list number) (i : nat) (v : number) :
  i < List.length arr -> List.length (array_set arr i v) = List.length arr.
Proof.
  revert i. induction arr as [|a arr IH]; intros i H; simpl in H; [lia|].
  destruct i as [|i]; [reflexivity|].
  rewrite array_set_cons_S. simpl. f_equal. apply IH. lia.
Qed.

Definition set_cell (arr : list number) (cell : nat * number) : list number :=
  array_set arr (fst cell) (snd cell).

Lemma fold_set_length (cells : list (nat * number)) (arr : list number) :
  (forall c, In c cells -> fst c < List.length arr) ->
  List.length (fold_left set_cell cells arr) = List.length arr.
Proof.
  revert arr. induction cells as [|c cells IH]; intros arr H; [reflexivity|].
  simpl. unfold set_cell at 2.
  assert (fst c < List.length arr) as Hc by (apply H; now left).
  rewrite IH; [now apply array_set_length_in|].
  intros c' Hc'. rewrite array_set_length_in by exact Hc. apply H. now right.
Qed.

Lemma fold_set_other (cells : list (nat * number)) (arr : list number) (j : nat) :
  ~ In j (map fst cells) ->
  JS.index (fold_left set_cell cells arr) j = JS.index arr j.
Proof.
  revert arr. induction cells as [|c cells IH]; intros arr H; [reflexivity|].
  simpl in *. rewrite IH by tauto. unfold set_cell.
  apply index_array_set_other. tauto.
Qed.

Lemma fold_set_same (cells : list (nat * number)) (arr : list number) (c : nat * number) :
  NoDup (map fst cells) -> In c cells ->
  JS.index (fold_left set_cell cells arr) (fst c) = snd c.
Proof.
  revert arr. induction cells as [|c' cells IH]; intros arr Hnd Hin; [contradiction|].
  simpl in *. inversion Hnd as [|? ? Hnotin Hnd']; subst.
  destruct Hin as [->|Hin].
  - rewrite fold_set_other by exact Hnotin. unfold set_cell.
    apply index_array_set_same.
  - apply IH; assumption.
Qed.

Lemma map_add_seq (k start len : nat) :
  map (fun x => k + x) (seq start len) = seq (k + start) len.
Proof.
  revert start. induction len as [|len IH]; intros start; simpl; [reflexivity|].
  f_equal. rewrite IH. f_equal. lia.
Qed.

Lemma rows_seq (rows cols : nat) :
  flat_map (fun y => map (fun x => y * cols + x) (seq 0 cols)) (seq 0 rows)
  = seq 0 (rows * cols).
Proof.
  induction rows as [|rows IH]; [reflexivity|].
  rewrite seq_S, flat_map_app, IH. simpl flat_map. rewrite app_nil_r.
  replace (S rows * cols) with (rows * cols + cols) by lia.
  rewrite seq_app. f_equal. simpl.
  rewrite map_add_seq. now rewrite Nat.add_0_r.
Qed.

Definition dct_cells (Math_cos : number -> number) (pixels : Uint8Array) (size : nat)
  : list (nat * number) :=
  flat_map
    (fun u => map (fun v => (u * size + v, dct_coefficient Math_cos pixels size u v))
                (seq 0 size))
    (seq 0 size).

Lemma simpleDCT_cells (Math_cos : number -> number) (pixels : Uint8Array) (size : nat) :
  simpleDCT Math_cos pixels size
  = fold_left set_cell (dct_cells Math_cos pixels size) (repeat 0%float (size * size)).
Proof.
  unfold simpleDCT, dct_cells.
  apply (fold_left_rows set_cell
           (fun u v => (u * size + v, dct_coefficient Math_cos pixels size u v))).
Qed.

Lemma dct_cells_indices (Math_cos : number -> number) (pixels : Uint8Array) (size : nat) :
  map fst (dct_cells Math_cos pixels size) = seq 0 (size * size).
Proof.
  unfold dct_cells. rewrite map_flat_map_rows. simpl. apply rows_seq.
Qed.

(** X15. [simpleDCT] returns exactly [size * size] coefficients, and the
    one at index [u * size + v] is the double sum, over [x] then [y], of
    [pixels[y * size + x] * cos1 * cos2] started from 0: each cell of the
    array is written once and read back unchanged. *)
Theorem simpleDCT_coefficients (Math_cos : number -> number) (pixels : Uint8Array)
    (size : nat) :
  List.length (simpleDCT Math_cos pixels size) = size * size
  /\ (forall u v,
         u < size -> v < size ->
         JS.index (simpleDCT Math_cos pixels size) (u * size + v)
         = dct_coefficient Math_cos pixels size u v).
Proof.
  rewrite simpleDCT_cells. split.
  - rewrite fold_set_length; [apply repeat_length|].
    intros c Hc. rewrite repeat_length.
    assert (In (fst c) (map fst (dct_cells Math_cos pixels size))) as H
        by (apply in_map, Hc).
    rewrite dct_cells_indices in H. apply in_seq in H. lia.
  - intros u v Hu Hv.
    apply (fold_set_same (dct_cells Math_cos pixels size) _
             (u * size + v, dct_coefficient Math_cos pixels size u v)).
    + rewrite dct_cells_indices. apply seq_NoDup.
    + unfold dct_cells. apply in_flat_map. exists u. split; [apply in_seq; lia|].
      apply in_map_iff. exists v. split; [reflexivity|apply in_seq; lia].
Qed.

(** ** Blocks that reach past the end of the buffer *)

Lemma add_nan_r (x : number) : (x + nan)%float = nan.
Proof.
  apply Prim2SF_inj. rewrite FloatAxioms.add_spec.
  replace (Prim2SF nan) with S754_nan by reflexivity.
  now destruct (Prim2SF x) as [[|]|[|]| |[|] m e].
Qed.

Lemma add_nan_l (x : number) : (nan + x)%float = nan.
Proof.
  apply Prim2SF_inj. rewrite FloatAxioms.add_spec.
  replace (Prim2SF nan) with S754_nan by reflexivity.
  now destruct (Prim2SF x) as [[|]|[|]| |[|] m e].
Qed.

Lemma div_nan_l (x : number) : (nan / x)%float = nan.
Proof.
  apply Prim2SF_inj. rewrite FloatAxioms.div_spec.
  replace (Prim2SF nan) with S754_nan by reflexivity.
  now destruct (Prim2SF x) as [[|]|[|]| |[|] m e].
Qed.

Lemma sum_nan_absorbs (pixels : Uint8Array) (indices : list nat) :
  fold_left (fun sum i => (sum + px pixels i)%float) indices nan = nan.
Proof.
  induction indices as [|i indices IH]; simpl; [reflexivity|].
  now rewrite add_nan_l.
Qed.

Lemma sum_with_missing_sample (pixels : Uint8Array) (indices : list nat) (start : number) :
  (exists i, In i indices /\ List.length pixels <= i) ->
  fold_left (fun sum i => (sum + px pixels i)%float) indices start = nan.
Proof.
  revert start. induction indices as [|j indices IH]; intros start [i [Hin Hi]];
    [contradiction|].
  simpl. destruct Hin as [->|Hin].
  - rewrite (px_past_end pixels i Hi), add_nan_r. apply sum_nan_absorbs.
  - apply IH. now exists i.
Qed.

(** X16. A block of the block hash that reaches past the end of the
    buffer gives bit 0: one missing sample makes the block sum NaN, and NaN
    is not greater than 128. *)
Theorem blockHash_missing_sample (pixels : Uint8Array) (size by_ bx i : nat) :
  by_ < size -> bx < size ->
  In i (block_indices size by_ bx) -> List.length pixels <= i ->
  String.get (by_ * size + bx) (blockHash_pixels pixels size) = Some "0"%char.
Proof.
  intros Hy Hx Hin Hi.
  rewrite blockHash_pixels_bits, hash_of_bits_get. unfold block_means.
  rewrite map_flat_map_rows.
  rewrite (flat_map_rows_nth
             (fun by_ bx => JS.gt (block_sum pixels size by_ bx / JS.of_nat 16)%float 128%float))
    by assumption.
  simpl option_map. rewrite block_sum_indices.
  rewrite sum_with_missing_sample by (now exists i).
  now rewrite div_nan_l, gt_nan_l.
Qed.

Lemma blockHash_missing_sample_witness :
  String.get 0 (blockHash_pixels (repeat (u8 255) 15) 1) = Some "0"%char.
Proof.
  apply (blockHash_missing_sample (repeat (u8 255) 15) 1 0 0 15);
    [lia|lia|simpl; tauto|simpl; lia].
Defined.

(** ** Gradients *)

Lemma flat_map_rows_shift {C : Type} (g : nat -> nat -> C) (n : nat) :
  flat_map (fun y => map (g y) (seq 1 n)) (seq 1 n)
  = flat_map (fun y => map (fun x => g (S y) (S x)) (seq 0 n)) (seq 0 n).
Proof.
  rewrite <- (seq_shift n 0).
  rewrite flat_map_concat_map, map_map, <- flat_map_concat_map.
  apply flat_map_ext. intros y. now rewrite map_map.
Qed.

(** X17. [calculateGradients] returns one magnitude per interior sample of
    the [size x size] grid, row by row: [(size - 2)^2] values, and for
    [1 <= y, x <= size - 2] the value at position
    [(y - 1) * (size - 2) + (x - 1)] is the magnitude at [(y, x)], the square
    root of the sum of the squared horizontal and vertical central
    differences. *)
Theorem calculateGradients_interior (pixels : Uint8Array) (size : nat) :
  List.length (calculateGradients pixels size) = (size - 2) * (size - 2)
  /\ (forall y x,
         1 <= y <= size - 2 -> 1 <= x <= size - 2 ->
         nth_error (calculateGradients pixels size) ((y - 1) * (size - 2) + (x - 1))
         = Some (gradient_magnitude pixels size y x)).
Proof.
  split; [apply calculateGradients_length|].
  intros y x Hy Hx. unfold calculateGradients.
  rewrite (push_loop2 (gradient_magnitude pixels size)). simpl app.
  rewrite flat_map_rows_shift.
  rewrite (flat_map_rows_nth (fun y x => gradient_magnitude pixels size (S y) (S x)))
    by lia.
  do 2 f_equal; lia.
Qed.

Lemma calculateGradients_interior_witness :
  nth_error (calculateGradients (map u8 [1; 2; 3; 4; 50; 6; 7; 8; 9]) 3) 0
  = Some (gradient_magnitude (map u8 [1; 2; 3; 4; 50; 6; 7; 8; 9]) 3 1 1).
Proof.
  apply (proj2 (calculateGradients_interior (map u8 [1; 2; 3; 4; 50; 6; 7; 8; 9]) 3) 1 1);
    simpl; lia.
Defined.
